(** * renanta: WebSocket-to-TCP proxy, a shallow embedding

    The repository holds two variants of one Node program:
    - [src/unnamed/part_000]: the pool-to-client direction is split on
      newlines ("newline-framed"), module [Framed] below;
    - [src/server.js]: the pool-to-client direction forwards raw chunks,
      module [Raw] below.

    Both are a single ['connection'] handler that closes over a client
    WebSocket [ws] and a backend socket [tcp].  The handler's event callbacks
    become functions from a session state to the list of calls they make on
    [ws] and [tcp] and the next state.  The platform functions the handlers
    call ([Buffer.from], [toString('utf8')], [String.prototype.split],
    [Number], [net.connect], ...) are modelled in the first modules. *)

From Stdlib Require Import ZArith NArith List Bool Lia String Ascii.
From Stdlib Require Import Floats.SpecFloat.
Import ListNotations.

Local Open Scope N_scope.

(** ** JavaScript strings and buffers *)

Module JS.

(** A string is the sequence of its code points; a code point above 0xFFFF
    stands for the surrogate pair that JavaScript stores.  Every character
    the handlers look for (['\n'], [':'], ['/'], digits) is below 0x80, so
    splitting, concatenating and testing for emptiness agree on both
    views. *)
Abbreviation codepoint := N (only parsing).
Abbreviation jsstring := (list N) (only parsing).

(** A [Buffer] is a sequence of octets, each below 256. *)
Abbreviation byte := N (only parsing).
Abbreviation buffer := (list N) (only parsing).

Definition octets (b : buffer) : Prop := Forall (fun x => x < 256) b.

(** String literal of the source, character by character. *)
Definition lit (s : string) : jsstring :=
  map N_of_ascii (list_ascii_of_string s).

Definition LF : N := 10.        (* '\n', 0x0a *)
Definition COLON : N := 58.     (* ':' *)
Definition SLASH : N := 47.     (* '/' *)

(** [!s] on a string: only the empty string is falsy. *)
Definition falsy (s : jsstring) : bool :=
  match s with [] => true | _ :: _ => false end.

(** [s.split(sep)] for a one-character separator, as the first segment and
    the segments after it: the result of [split] is never empty. *)
Fixpoint split1 (sep : N) (s : list N) : list N * list (list N) :=
  match s with
  | [] => ([], [])
  | c :: r =>
      let (h, t) := split1 sep r in
      if c =? sep then ([], h :: t) else (c :: h, t)
  end.

Definition split (sep : N) (s : list N) : list (list N) :=
  let (h, t) := split1 sep s in h :: t.

(** [msgs.pop()]: the last element (or [undefined]) and the array without
    it. *)
Fixpoint pop {A} (l : list A) : option A * list A :=
  match l with
  | [] => (None, [])
  | [x] => (Some x, [])
  | x :: r => let (o, r') := pop r in (o, x :: r')
  end.

(** [buf.slice(-1)[0]]: the last octet, [undefined] on an empty buffer. *)
Definition last_octet (b : buffer) : option byte := fst (pop b).

(** [x === v] for an octet or [undefined] against a number. *)
Definition strict_eq (x : option byte) (v : N) : bool :=
  match x with Some y => y =? v | None => false end.

End JS.
Import JS.

(** ** UTF-8, as [buf.toString('utf8')] and [Buffer.from(string)] use it *)

Module Utf8.

Definition REPLACEMENT : codepoint := 0xFFFD.

Definition surrogate (c : codepoint) : bool := (0xD800 <=? c) && (c <=? 0xDFFF).

(** A Unicode scalar value: what a well-formed string is made of. *)
Definition scalar (c : codepoint) : bool := (c <? 0x110000) && negb (surrogate c).

(** Encoder.  [0xC0 + c / 64] is [0xC0 | (c >> 6)], [0x80 + c mod 64] is
    [0x80 | (c & 0x3F)], and so on.  A lone surrogate is written as
    U+FFFD. *)
Definition encode_cp (c : codepoint) : buffer :=
  if c <? 0x80 then [c]
  else if c <? 0x800 then [0xC0 + c / 64; 0x80 + c mod 64]
  else if c <? 0x10000 then
    if surrogate c then [0xEF; 0xBF; 0xBD]
    else [0xE0 + c / 4096; 0x80 + (c / 64) mod 64; 0x80 + c mod 64]
  else if c <? 0x110000 then
    [0xF0 + c / 262144; 0x80 + (c / 4096) mod 64;
     0x80 + (c / 64) mod 64; 0x80 + c mod 64]
  else [0xEF; 0xBF; 0xBD].

Definition encode (s : jsstring) : buffer := flat_map encode_cp s.

(** Decoder with replacement: an ill-formed sequence yields U+FFFD for each
    maximal ill-formed part, nothing is rejected and nothing throws.  The
    state is the one of the WHATWG decoder: the code point under
    construction, the continuation bytes still needed (at least one) and the
    bounds of the next continuation byte. *)
Inductive state :=
| Start
| Pending (cp needed lower upper : N).

(** A byte met in state [Start]. *)
Definition lead (b : byte) : list codepoint * state :=
  if b <=? 0x7F then ([b], Start)
  else if (0xC2 <=? b) && (b <=? 0xDF) then ([], Pending (b mod 32) 1 0x80 0xBF)
  else if (0xE0 <=? b) && (b <=? 0xEF) then
    ([], Pending (b mod 16) 2 (if b =? 0xE0 then 0xA0 else 0x80)
                              (if b =? 0xED then 0x9F else 0xBF))
  else if (0xF0 <=? b) && (b <=? 0xF4) then
    ([], Pending (b mod 8) 3 (if b =? 0xF0 then 0x90 else 0x80)
                             (if b =? 0xF4 then 0x8F else 0xBF))
  else ([REPLACEMENT], Start).

Definition step (st : state) (b : byte) : list codepoint * state :=
  match st with
  | Start => lead b
  | Pending cp needed lower upper =>
      if (lower <=? b) && (b <=? upper) then
        let cp' := cp * 64 + b mod 64 in
        if needed =? 1 then ([cp'], Start)
        else ([], Pending cp' (needed - 1) 0x80 0xBF)
      else
        (* the byte does not continue the sequence: U+FFFD for what was
           read, and the byte is processed again from [Start] *)
        let (out, st') := lead b in (REPLACEMENT :: out, st')
  end.

(** End of input inside a sequence. *)
Definition flush (st : state) : list codepoint :=
  match st with Start => [] | Pending _ _ _ _ => [REPLACEMENT] end.

Fixpoint decode_from (st : state) (bs : buffer) : jsstring :=
  match bs with
  | [] => flush st
  | b :: r => let (out, st') := step st b in out ++ decode_from st' r
  end.

(** [buf.toString('utf8')] *)
Definition toString (bs : buffer) : jsstring := decode_from Start bs.

End Utf8.

(** ** Base64: the client's encoder and [Buffer.from(path, 'base64')] *)

Module Base64.

Definition PAD : N := 61.   (* '=' *)

(** The standard alphabet: [A-Z], [a-z], [0-9], [+], [/]. *)
Definition alphabet (i : N) : codepoint :=
  if i <? 26 then 65 + i
  else if i <? 52 then 71 + i
  else if i <? 62 then i - 4
  else if i =? 62 then 43
  else 47.

(** The encoder of the client ([btoa] in the usage note of
    [src/server.js]): three octets to four characters, [=] padding. *)
Fixpoint encode (bs : buffer) : jsstring :=
  match bs with
  | [] => []
  | [a] => [alphabet (a / 4); alphabet (a mod 4 * 16); PAD; PAD]
  | [a; b] =>
      [alphabet (a / 4); alphabet (a mod 4 * 16 + b / 16);
       alphabet (b mod 16 * 4); PAD]
  | a :: b :: c :: r =>
      alphabet (a / 4) :: alphabet (a mod 4 * 16 + b / 16) ::
      alphabet (b mod 16 * 4 + c / 64) :: alphabet (c mod 64) :: encode r
  end.

(** Node's decoding table: the standard alphabet and the URL-safe [-] and
    [_]; every other character has no value. *)
Definition unbase64 (c : codepoint) : option N :=
  if (65 <=? c) && (c <=? 90) then Some (c - 65)
  else if (97 <=? c) && (c <=? 122) then Some (c - 71)
  else if (48 <=? c) && (c <=? 57) then Some (c + 4)
  else if (c =? 43) || (c =? 45) then Some 62
  else if (c =? 47) || (c =? 95) then Some 63
  else None.

(** Node's decoder is lenient: a character without a value is skipped, the
    first [=] ends the input, and no input makes it throw. *)
Fixpoint sextets (s : jsstring) : list N :=
  match s with
  | [] => []
  | c :: r =>
      if c =? PAD then []
      else match unbase64 c with
           | Some v => v :: sextets r
           | None => sextets r
           end
  end.

(** Octets of the sextet stream: [(hi << 2) | (lo >> 4)],
    [((hi & 0x0F) << 4) | (lo >> 2)], [((hi & 0x03) << 6) | lo]; a last
    group of two or three sextets gives one or two octets, a lone sextet
    none. *)
Fixpoint octets_of (l : list N) : buffer :=
  match l with
  | s1 :: s2 :: s3 :: s4 :: r =>
      (s1 * 4 + s2 / 16) :: (s2 mod 16 * 16 + s3 / 4) ::
      (s3 mod 4 * 64 + s4) :: octets_of r
  | [s1; s2; s3] => [s1 * 4 + s2 / 16; s2 mod 16 * 16 + s3 / 4]
  | [s1; s2] => [s1 * 4 + s2 / 16]
  | _ => []
  end.

Definition decode (s : jsstring) : buffer := octets_of (sextets s).

End Base64.

(** ** [Number(x)] on a string or [undefined]

    A JavaScript number is an IEEE 754 binary64 value: [spec_float] with a
    53-bit significand and infinities at exponent 1024. *)

Module JsNumber.

Definition prec : Z := 53.
Definition emax : Z := 1024.

Abbreviation number := spec_float (only parsing).
Definition NaN : number := S754_nan.

(** [!x] on a number: [NaN], [+0] and [-0] are falsy. *)
Definition falsy (x : number) : bool :=
  match x with
  | S754_nan | S754_zero _ => true
  | _ => false
  end.

(** WhiteSpace and LineTerminator of ECMAScript, which [Number] trims. *)
Definition white_space (c : codepoint) : bool :=
  ((9 <=? c) && (c <=? 13)) || (c =? 0x20) || (c =? 0xA0) || (c =? 0x1680)
  || ((0x2000 <=? c) && (c <=? 0x200A)) || (c =? 0x2028) || (c =? 0x2029)
  || (c =? 0x202F) || (c =? 0x205F) || (c =? 0x3000) || (c =? 0xFEFF).

Fixpoint trim_start (s : jsstring) : jsstring :=
  match s with
  | c :: r => if white_space c then trim_start r else s
  | [] => []
  end.

Definition trim (s : jsstring) : jsstring :=
  rev (trim_start (rev (trim_start s))).

(** Value of a digit in a base up to 16. *)
Definition digit (base : Z) (c : codepoint) : option Z :=
  let v :=
    if (48 <=? c) && (c <=? 57) then Some (Z.of_N (c - 48))
    else if (97 <=? c) && (c <=? 102) then Some (Z.of_N (c - 87))
    else if (65 <=? c) && (c <=? 70) then Some (Z.of_N (c - 55))
    else None in
  match v with
  | Some d => if (d <? base)%Z then Some d else None
  | None => None
  end.

(** The longest prefix of digits, as the number it denotes and the count of
    its digits, and what follows it. *)
Fixpoint span_digits (base : Z) (acc : Z) (n : Z) (s : jsstring)
  : Z * Z * jsstring :=
  match s with
  | c :: r =>
      match digit base c with
      | Some d => span_digits base (acc * base + d)%Z (n + 1)%Z r
      | None => (acc, n, s)
      end
  | [] => (acc, n, [])
  end.

(** [0x], [0o], [0b] literals: a prefix and at least one digit, nothing
    else. *)
Definition non_decimal (t : jsstring) : option Z :=
  match t with
  | z :: x :: ds =>
      let base : Z :=
        if (x =? 120) || (x =? 88) then 16%Z        (* x X *)
        else if (x =? 111) || (x =? 79) then 8%Z    (* o O *)
        else if (x =? 98) || (x =? 66) then 2%Z     (* b B *)
        else 0%Z in
      if negb (z =? 48) || (base =? 0)%Z then None
      else match span_digits base 0 0 ds with
           | (v, n, []) => if (n =? 0)%Z then None else Some v
           | _ => None
           end
  | _ => None
  end.

(** An unsigned decimal literal [digits? (. digits?)? (e sign? digits)?] with
    a digit before the exponent, as [m] and [e] of its value [m * 10^e]. *)
Definition decimal_literal (u : jsstring) : option (Z * Z) :=
  let '(ip, ni, r1) := span_digits 10 0 0 u in
  let '(m, nf, r2) :=
    match r1 with
    | c :: r => if c =? 46 then span_digits 10 ip 0 r else (ip, 0%Z, r1)
    | [] => (ip, 0%Z, r1)
    end in
  if (ni + nf =? 0)%Z then None
  else match r2 with
       | [] => Some (m, (- nf)%Z)
       | c :: r3 =>
           if (c =? 101) || (c =? 69) then             (* e E *)
             let (neg, r4) :=
               match r3 with
               | sg :: r =>
                   if sg =? 43 then (false, r)
                   else if sg =? 45 then (true, r)
                   else (false, r3)
               | [] => (false, r3)
               end in
             match span_digits 10 0 0 r4 with
             | (x, nx, []) =>
                 if (nx =? 0)%Z then None
                 else Some (m, ((if neg then - x else x) - nf)%Z)
             | _ => None
             end
           else None
       end.

(** The double nearest to [m * 10^e] ([0 <= m]), ties to even. *)
Definition to_double (neg : bool) (m e : Z) : number :=
  match m with
  | Zpos p =>
      if (0 <=? e)%Z then
        match (Zpos p * 10 ^ e)%Z with
        | Zpos q => binary_round prec emax neg q 0
        | _ => NaN
        end
      else
        let '(q, e', l) :=
          SFdiv_core_binary prec emax (Zpos p) 0 (10 ^ (- e)) 0 in
        binary_round_aux prec emax neg q e' l
  | _ => S754_zero neg
  end.

Definition unsigned_literal (neg : bool) (u : jsstring) : number :=
  if list_eq_dec N.eq_dec u (lit "Infinity") then S754_infinity neg
  else match decimal_literal u with
       | Some (m, e) => to_double neg m e
       | None => NaN
       end.

(** StringToNumber *)
Definition StringToNumber (s : jsstring) : number :=
  match trim s with
  | [] => S754_zero false
  | c :: u =>
      match non_decimal (c :: u) with
      | Some v => to_double false v 0
      | None =>
          if c =? 45 then unsigned_literal true u          (* - *)
          else if c =? 43 then unsigned_literal false u    (* + *)
          else unsigned_literal false (c :: u)
      end
  end.

(** [Number(x)]: [undefined] converts to [NaN]. *)
Definition Number (x : option jsstring) : number :=
  match x with
  | None => NaN
  | Some s => StringToNumber s
  end.

(** The integer a number is, when it is one. *)
Definition integer_value (x : number) : option Z :=
  match x with
  | S754_zero _ => Some 0%Z
  | S754_finite s m e =>
      let sign (v : Z) := if s then (- v)%Z else v in
      if (0 <=? e)%Z then Some (sign (Zpos m * 2 ^ e)%Z)
      else if (Zpos m mod 2 ^ (- e) =? 0)%Z then Some (sign (Zpos m / 2 ^ (- e))%Z)
      else None
  | _ => None
  end.

End JsNumber.

(** ** The [ws] and [net] objects a handler closes over *)

Module Platform.

Import JsNumber.

(** [ws.readyState] *)
Inductive readyState := CONNECTING | OPEN | CLOSING | CLOSED.

Definition is_open (r : readyState) : bool :=
  match r with OPEN => true | _ => false end.

(** The backend socket: connect in flight, connected, destroyed. *)
Inductive tcp_status := tcp_connecting | tcp_connected | tcp_destroyed.

(** What [ws.send] puts on the wire: a string goes out as a TEXT frame
    holding its UTF-8 encoding, a [Buffer] as a BINARY frame. *)
Inductive frame :=
| TEXT (m : jsstring)
| BINARY (b : buffer).

Definition payload (f : frame) : buffer :=
  match f with
  | TEXT m => Utf8.encode m
  | BINARY b => b
  end.

(** The argument of a ['message'] listener: a [Buffer], or a string. *)
Inductive message_data :=
| data_buffer (b : buffer)
| data_string (s : jsstring).

(** The calls a handler makes on the two connections and on the timer. *)
Inductive call :=
| ws_close_with (code : N) (reason : jsstring)   (* ws.close(code, reason) *)
| ws_close                                       (* ws.close() *)
| ws_send (f : frame)
| ws_ping
| net_connect (host : jsstring) (port : number)
| tcp_write (b : buffer)
| tcp_destroy
| setInterval (ms : N)
| clearInterval.

(** State of the objects shared by the listeners of one connection: the
    client socket, the backend socket and whether the interval [ka] is
    armed. *)
Record wires := mkWires {
  ws_readyState : readyState;
  tcp : tcp_status;
  ka : bool
}.

(** What the runtime delivers to one connection.  [ws_closing] is the [ws]
    library entering the closing handshake by itself (the peer sent a close
    frame, or the library failed the connection); no listener runs. *)
Inductive event :=
| tcp_connect                      (* callback of net.connect *)
| tcp_data (chunk : buffer)
| tcp_end
| tcp_close
| tcp_error
| ws_message (data : message_data)
| ws_closing
| ws_closed                        (* 'close' on ws *)
| ws_error
| tick.                            (* KEEPALIVE_MS elapsed *)

(** The state the libraries have put the objects in when the listeners of
    an event run: a socket is destroyed when its ['close'] or ['error'] is
    emitted, a WebSocket is CLOSED when its ['close'] is emitted. *)
Definition arrive (e : event) (w : wires) : wires :=
  match e with
  | tcp_connect =>
      match tcp w with
      | tcp_connecting => mkWires (ws_readyState w) tcp_connected (ka w)
      | _ => w
      end
  | tcp_close | tcp_error => mkWires (ws_readyState w) tcp_destroyed (ka w)
  | ws_closing =>
      if is_open (ws_readyState w) then mkWires CLOSING (tcp w) (ka w) else w
  | ws_closed => mkWires CLOSED (tcp w) (ka w)
  | _ => w
  end.

(** [net.connect] validates the port before it does anything else and
    throws [ERR_SOCKET_BAD_PORT] unless it is an integer in 0..65535. *)
Definition legal_port (p : number) : bool :=
  match integer_value p with
  | Some z => (0 <=? z)%Z && (z <=? 65535)%Z
  | None => false
  end.

(** [net.connect] hands a host name to the name lookup before it returns,
    and the lookup throws on a name that holds U+0000. *)
Definition legal_host (h : jsstring) : bool := negb (existsb (N.eqb 0) h).

(** [req.url?.replace('/', '') || '']: the first ['/'] is removed. *)
Fixpoint replace_first (c : N) (s : jsstring) : jsstring :=
  match s with
  | [] => []
  | x :: r => if x =? c then r else x :: replace_first c r
  end.

(** Result of an expression under [try]. *)
Inductive completion (A : Type) :=
| Normal (a : A)
| Throw.
Arguments Normal {A} a.
Arguments Throw {A}.

(** [Buffer.from(path, 'base64').toString('utf8')]: neither call throws on
    a string argument. *)
Definition decode_path (path : jsstring) : completion jsstring :=
  Normal (Utf8.toString (Base64.decode path)).

(** [Buffer.isBuffer(data) ? data : Buffer.from(data)] *)
Definition to_buffer (data : message_data) : buffer :=
  match data with
  | data_buffer b => b
  | data_string s => Utf8.encode s
  end.

(** The frames among the calls. *)
Definition frames (cs : list call) : list frame :=
  flat_map (fun c => match c with ws_send f => [f] | _ => [] end) cs.

End Platform.

(** ** [src/unnamed/part_000]: the newline-framed variant *)

Module Framed.

Import JsNumber Platform.

Definition KEEPALIVE_MS : N := 15000.

(** The variables the listeners of one connection share: [rest] and the
    objects [ws], [tcp], [ka]. *)
Record session := mkSession {
  rest : jsstring;
  wire : wires
}.

Definition ws_open (s : session) : bool := is_open (ws_readyState (wire s)).

(** The session of a connection whose handler ran to its end: [rest = ''],
    the client OPEN, the backend connect in flight, the interval armed. *)
Definition fresh : session := mkSession [] (mkWires OPEN tcp_connecting true).

(** The ['connection'] handler from [decoded.split(':')] on: the calls made,
    and the session whose listeners are then registered.  No session when
    the handler returns early or [net.connect] throws. *)
Definition open_target (decoded : jsstring) : list call * option session :=
  let parts := split COLON decoded in
  let host := nth_error parts 0 in
  let portStr := nth_error parts 1 in
  let port := Number portStr in
  match host with
  | Some host =>
      if JS.falsy host || JsNumber.falsy port
      then ([ws_close_with 1008 (lit "need host:port")], None)
      else if legal_port port && legal_host host
      then ([net_connect host port; setInterval KEEPALIVE_MS], Some fresh)
      else ([net_connect host port], None)
  | None => ([ws_close_with 1008 (lit "need host:port")], None)
  end.

(** [wss.on('connection', (ws, req) => ...)] *)
Definition connection (url : option jsstring) : list call * option session :=
  let path := match url with Some u => replace_first SLASH u | None => [] end in
  match decode_path path with
  | Throw => ([ws_close_with 1008 (lit "bad base64")], None)
  | Normal decoded => open_target decoded
  end.

(** [tcp.on('data', chunk => ...)] *)
Definition on_data (chunk : buffer) (s : session) : list call * session :=
  let str := rest s ++ Utf8.toString chunk in
  let msgs := split LF str in
  let (last, msgs) := pop msgs in
  let rest' := match last with Some r => r | None => [] end in
  (flat_map (fun m =>
     if JS.falsy m then []
     else if ws_open s then [ws_send (TEXT m)] else []) msgs,
   mkSession rest' (wire s)).

(** [tcp.on('end', ...)] *)
Definition on_end (s : session) : list call * session :=
  (if negb (JS.falsy (rest s)) && ws_open s then [ws_send (TEXT (rest s))] else [],
   s).

(** [ws.on('message', data => ...)] *)
Definition on_message (data : message_data) (s : session) : list call * session :=
  let buf := to_buffer data in
  ([tcp_write (if strict_eq (last_octet buf) 0x0a then buf
               else buf ++ Utf8.encode [LF])],
   s).

(** [closeAll]: [tcp.destroy()], then [ws.close()] if the client is OPEN;
    with the state the two sockets are in afterwards. *)
Definition closeAll (s : session) : list call * session :=
  let w := wire s in
  if is_open (ws_readyState w)
  then ([tcp_destroy; ws_close], mkSession (rest s) (mkWires CLOSING tcp_destroyed (ka w)))
  else ([tcp_destroy], mkSession (rest s) (mkWires (ws_readyState w) tcp_destroyed (ka w))).

(** [ws.on('close', () => clearInterval(ka))] *)
Definition clear_ka (s : session) : list call * session :=
  let w := wire s in
  ([clearInterval], mkSession (rest s) (mkWires (ws_readyState w) (tcp w) false)).

(** The interval callback [() => ws.ping()]; it runs only while [ka] is
    armed. *)
Definition on_tick (s : session) : list call * session :=
  (if ka (wire s) then [ws_ping] else [], s).

(** The listeners of an event, in the order they were registered. *)
Definition handle (s : session) (e : event) : list call * session :=
  let s := mkSession (rest s) (arrive e (wire s)) in
  match e with
  | tcp_connect => ([], s)
  | tcp_data chunk => on_data chunk s
  | tcp_end => on_end s
  | tcp_close | tcp_error | ws_error => closeAll s
  | ws_message data => on_message data s
  | ws_closing => ([], s)
  | ws_closed =>
      let (c1, s1) := closeAll s in
      let (c2, s2) := clear_ka s1 in
      (c1 ++ c2, s2)
  | tick => on_tick s
  end.

Fixpoint run (s : session) (evs : list event) : list call * session :=
  match evs with
  | [] => ([], s)
  | e :: r =>
      let (c, s1) := handle s e in
      let (cs, s2) := run s1 r in
      (c ++ cs, s2)
  end.

End Framed.

(** ** [src/server.js]: the raw-forwarding variant *)

Module Raw.

Import JsNumber Platform.

Definition KEEPALIVE_MS : N := 15000.

Definition session := wires.

Definition fresh : session := mkWires OPEN tcp_connecting true.

Definition open_target (decoded : jsstring) : list call * option session :=
  let parts := split COLON decoded in
  let host := nth_error parts 0 in
  let portStr := nth_error parts 1 in
  let port := Number portStr in
  match host with
  | Some host =>
      if JS.falsy host || JsNumber.falsy port
      then ([ws_close_with 1008 (lit "URL must encode host:port")], None)
      else if legal_port port && legal_host host
      then ([net_connect host port; setInterval KEEPALIVE_MS], Some fresh)
      else ([net_connect host port], None)
  | None => ([ws_close_with 1008 (lit "URL must encode host:port")], None)
  end.

Definition connection (url : option jsstring) : list call * option session :=
  let urlPath := match url with Some u => replace_first SLASH u | None => [] end in
  match decode_path urlPath with
  | Throw => ([ws_close_with 1008 (lit "Bad base64 in URL")], None)
  | Normal decoded => open_target decoded
  end.

(** [ws.on('message', (data) => ...)] *)
Definition on_message (data : message_data) (s : session) : list call * session :=
  let buf := to_buffer data in
  ([tcp_write (if strict_eq (last_octet buf) 0x0a then buf
               else buf ++ Utf8.encode [LF])],
   s).

(** [tcp.on('data', (chunk) => ...)] *)
Definition on_data (chunk : buffer) (s : session) : list call * session :=
  (if is_open (ws_readyState s) then [ws_send (BINARY chunk)] else [], s).

(** [shutdown] *)
Definition shutdown (s : session) : list call * session :=
  if is_open (ws_readyState s)
  then ([tcp_destroy; ws_close], mkWires CLOSING tcp_destroyed (ka s))
  else ([tcp_destroy], mkWires (ws_readyState s) tcp_destroyed (ka s)).

Definition clear_ka (s : session) : list call * session :=
  ([clearInterval], mkWires (ws_readyState s) (tcp s) false).

Definition on_tick (s : session) : list call * session :=
  (if ka s then [ws_ping] else [], s).

(** No listener is registered for ['end'] in this variant. *)
Definition handle (s : session) (e : event) : list call * session :=
  let s := arrive e s in
  match e with
  | tcp_connect | tcp_end | ws_closing => ([], s)
  | tcp_data chunk => on_data chunk s
  | tcp_close | tcp_error | ws_error => shutdown s
  | ws_message data => on_message data s
  | ws_closed =>
      let (c1, s1) := shutdown s in
      let (c2, s2) := clear_ka s1 in
      (c1 ++ c2, s2)
  | tick => on_tick s
  end.

Fixpoint run (s : session) (evs : list event) : list call * session :=
  match evs with
  | [] => ([], s)
  | e :: r =>
      let (c, s1) := handle s e in
      let (cs, s2) := run s1 r in
      (c ++ cs, s2)
  end.

End Raw.

(** ** Vocabulary of the specification *)

Module Spec.

Import JsNumber Platform.

(** The segments of a stream that a separator closes, and what follows the
    last separator. *)
Definition completed (sep : N) (s : list N) : list (list N) :=
  snd (pop (split sep s)).

Definition tail (sep : N) (s : list N) : list N :=
  match fst (pop (split sep s)) with Some r => r | None => [] end.

Definition complete_segments (stream : list N) : list (list N) :=
  completed LF stream.

Definition remainder (stream : list N) : list N := tail LF stream.

Definition nonempty (segs : list (list N)) : list (list N) :=
  filter (fun m => negb (JS.falsy m)) segs.

(** Text without lone surrogates, the strings UTF-8 can carry. *)
Definition well_formed (t : jsstring) : Prop :=
  Forall (fun c => Utf8.scalar c = true) t.

(** "Ends with exactly one delimiter": the last octet is the delimiter and
    the one before it, if any, is not. *)
Definition ends_with_one_delimiter (b : buffer) : bool :=
  match rev b with
  | x :: y :: _ => (x =? LF) && negb (y =? LF)
  | [x] => x =? LF
  | [] => false
  end.

(** A decimal numeral, most significant digit first, and its value. *)
Definition numeral (ds : list N) : jsstring := map (fun d => 48 + d) ds.

Definition numeral_value (ds : list N) : Z :=
  fold_left (fun a d => (a * 10 + Z.of_N d)%Z) ds 0%Z.

Definition digits (ds : list N) : Prop := Forall (fun d => d < 10) ds.


Definition count_ws_close (cs : list call) : nat :=
  List.length (filter (fun c => match c with ws_close => true | _ => false end) cs).

Definition count_tcp_destroy (cs : list call) : nat :=
  List.length (filter (fun c => match c with tcp_destroy => true | _ => false end) cs).

Definition pings (cs : list call) : nat :=
  List.length (filter (fun c => match c with ws_ping => true | _ => false end) cs).

(** A call with the reason text of a close taken out. *)
Definition blank_reason (c : call) : call :=
  match c with
  | ws_close_with code _ => ws_close_with code []
  | _ => c
  end.

(** The calls that are not frames. *)
Definition control (cs : list call) : list call :=
  filter (fun c => match c with ws_send _ => false | _ => true end) cs.


(** The lifecycle states of the specification.  The program keeps no such
    variable; the state is read off the two sockets: [connecting] while the
    backend connect is in flight, [active] once it succeeded, both with the
    client OPEN; [closed] when the backend is destroyed and the client
    CLOSED; [closing] in between. *)
Inductive lifecycle := connecting | active | closing | closed.

Definition lifecycle_of (w : wires) : lifecycle :=
  match tcp w, ws_readyState w with
  | tcp_connecting, OPEN => connecting
  | tcp_connected, OPEN => active
  | tcp_destroyed, CLOSED => closed
  | _, _ => closing
  end.

(** A rejection: the policy-violation close and nothing else, no session. *)
Definition rejected (r : list call * option Framed.session) : Prop :=
  exists reason, r = ([ws_close_with 1008 reason], None).

(** The text a handler decodes from the request target. *)
Definition decoded_of (url : option jsstring) : jsstring :=
  Utf8.toString (Base64.decode
    (match url with Some u => replace_first SLASH u | None => [] end)).

(** Events after which the client is not OPEN. *)
Definition closes (e : event) : bool :=
  match e with
  | ws_closing | ws_closed | ws_error | tcp_close | tcp_error => true
  | _ => false
  end.

(** Events that leave the client OPEN and are not the end of the backend
    stream. *)
Definition quiet (e : event) : bool :=
  match e with
  | tcp_connect | tcp_data _ | ws_message _ | tick => true
  | _ => false
  end.

(** The text of the chunks a trace delivers, each decoded on arrival. *)
Definition stream_text (evs : list event) : jsstring :=
  flat_map (fun e => match e with
                     | tcp_data chunk => Utf8.toString chunk
                     | _ => []
                     end) evs.

(** The token a client builds for a destination text. *)
Definition token (target : jsstring) : jsstring :=
  Base64.encode (Utf8.encode target).

Definition url_of (target : jsstring) : option jsstring :=
  Some (SLASH :: token target).

End Spec.

(** ** Proof tools *)

Module Tactics.

(** [lia] reads [/] and [mod] by a constant through their Euclidean
    equations. *)
Ltac Zify.zify_post_hook ::= Z.to_euclidean_division_equations.

Ltac to_prop H :=
  rewrite ?andb_true_iff, ?andb_false_iff, ?negb_true_iff, ?negb_false_iff,
    ?orb_true_iff, ?orb_false_iff in H;
  rewrite ?andb_true_iff, ?andb_false_iff, ?N.leb_le, ?N.leb_gt, ?N.ltb_lt,
    ?N.ltb_ge, ?N.eqb_eq, ?N.eqb_neq in H.

(** Decide the test of the first conditional of the goal by arithmetic. *)
Ltac branch :=
  match goal with
  | |- context [if ?b then _ else _] =>
      let E := fresh "E" in
      destruct b eqn:E; to_prop E; try (exfalso; lia)
  end.

(** Bounds of a continuation byte that depend on the lead byte. *)
Ltac bounds :=
  repeat match goal with
         | |- context [N.eqb ?a ?b] => destruct (N.eqb_spec a b)
         end; lia.

End Tactics.

(** ** Vocabulary of the further properties *)

Module Coverage.

Import Platform.

(** The buffers written to the backend among the calls. *)
Definition writes (cs : list call) : list (list N) :=
  flat_map (fun c => match c with tcp_write b => [b] | _ => [] end) cs.

(** The client messages of a trace, as the buffers the handler normalises
    them to. *)
Definition messages (evs : list event) : list (list N) :=
  flat_map (fun e => match e with
                     | ws_message data => [to_buffer data]
                     | _ => []
                     end) evs.

(** The chunks the backend delivers in a trace. *)
Definition chunks_of (evs : list event) : list (list N) :=
  flat_map (fun e => match e with tcp_data chunk => [chunk] | _ => [] end) evs.

(** A buffer with a delimiter at its end: itself when it has one. *)
Definition terminated (b : list N) : list N :=
  if strict_eq (last_octet b) LF then b else b ++ [LF].

(** Octets of 7-bit text. *)
Definition ascii (b : list N) : Prop := Forall (fun x => x < 128) b.

(** Ticks of a trace before the client's ['close']. *)
Fixpoint ticks_before_close (evs : list event) : nat :=
  match evs with
  | [] => 0%nat
  | ws_closed :: _ => 0%nat
  | tick :: r => S (ticks_before_close r)
  | _ :: r => ticks_before_close r
  end.

End Coverage.

(** * Part II: properties *)

(** ** Splitting *)

Section SplitFacts.

Variable sep : N.

Lemma split_cons (c : N) (s : list N) :
  split sep (c :: s) =
  if c =? sep then [] :: split sep s
  else match split sep s with
       | h :: t => (c :: h) :: t
       | [] => [[c]]
       end.
Proof.
  unfold split; simpl. destruct (split1 sep s) as [h t].
  destruct (c =? sep); reflexivity.
Qed.

Lemma split_not_nil (s : list N) : split sep s <> [].
Proof. unfold split. destruct (split1 sep s). discriminate. Qed.

Lemma pop_cons2 {A} (x y : A) (l : list A) :
  pop (x :: y :: l) = (fst (pop (y :: l)), x :: snd (pop (y :: l))).
Proof. cbn [pop]. destruct l; [reflexivity|]. destruct (pop (a :: l)); reflexivity. Qed.

Lemma pop_cons {A} (x : A) (l : list A) :
  l <> [] -> pop (x :: l) = (fst (pop l), x :: snd (pop l)).
Proof. destruct l; [congruence|]. intros _. apply pop_cons2. Qed.

Lemma pop_app {A} (l1 l2 : list A) :
  l2 <> [] -> pop (l1 ++ l2) = (fst (pop l2), l1 ++ snd (pop l2)).
Proof.
  intros H. induction l1 as [|x l1 IH]; simpl app.
  - destruct (pop l2); reflexivity.
  - rewrite pop_cons, IH; [reflexivity|].
    destruct l1; simpl; [assumption|discriminate].
Qed.

Lemma pop_some {A} (l : list A) : l <> [] -> exists x, fst (pop l) = Some x.
Proof.
  induction l as [|a l IH]; [congruence|]. intros _.
  destruct l as [|b l]; [exists a; reflexivity|].
  rewrite pop_cons2. apply IH. discriminate.
Qed.

(** What [pop] gives is the array: [init ++ [last]]. *)
Lemma pop_spec {A} (l : list A) (x : A) :
  fst (pop l) = Some x -> l = snd (pop l) ++ [x].
Proof.
  induction l as [|a l IH]; [discriminate|].
  destruct l as [|b l].
  - simpl. intros [= ->]. reflexivity.
  - rewrite pop_cons2. cbn [fst snd]. intros H. rewrite <- app_comm_cons.
    f_equal. apply IH, H.
Qed.

Lemma split_completed_tail (s : list N) :
  split sep s = Spec.completed sep s ++ [Spec.tail sep s].
Proof.
  unfold Spec.completed, Spec.tail.
  destruct (pop_some (split sep s) (split_not_nil s)) as [x Hx].
  rewrite Hx. apply pop_spec, Hx.
Qed.

(** Splitting a stream that arrives in two parts: the segments the first
    part completes, then the split of its tail followed by the second
    part. *)
Lemma split_app (a b : list N) :
  split sep (a ++ b) = Spec.completed sep a ++ split sep (Spec.tail sep a ++ b).
Proof.
  induction a as [|c a IH].
  - reflexivity.
  - simpl app. rewrite split_cons. unfold Spec.completed, Spec.tail in *.
    rewrite (split_cons c a).
    destruct (c =? sep) eqn:Ec.
    + rewrite (pop_cons [] (split sep a)) by apply split_not_nil.
      cbn [fst snd]. rewrite IH. reflexivity.
    + rewrite IH. clear IH.
      destruct (split sep a) as [|h t] eqn:E; [now apply split_not_nil in E|].
      destruct t as [|h2 t].
      * simpl. rewrite split_cons, Ec. reflexivity.
      * rewrite !pop_cons2. cbn [fst snd]. reflexivity.
Qed.

Lemma completed_app (a b : list N) :
  Spec.completed sep (a ++ b) =
  Spec.completed sep a ++ Spec.completed sep (Spec.tail sep a ++ b).
Proof.
  unfold Spec.completed at 1. rewrite split_app, pop_app by apply split_not_nil.
  reflexivity.
Qed.

Lemma tail_app (a b : list N) : Spec.tail sep (a ++ b) = Spec.tail sep (Spec.tail sep a ++ b).
Proof.
  unfold Spec.tail at 1. rewrite split_app, pop_app by apply split_not_nil.
  reflexivity.
Qed.

(** No segment holds a separator. *)
Lemma split_clean (s : list N) : Forall (fun g => ~ In sep g) (split sep s).
Proof.
  induction s as [|c s IH].
  - repeat constructor. simpl. tauto.
  - rewrite split_cons. destruct (c =? sep) eqn:Ec.
    + constructor; [simpl; tauto|assumption].
    + apply N.eqb_neq in Ec.
      destruct (split sep s) as [|h t].
      * repeat constructor. simpl. intros [H|H]; [congruence|tauto].
      * inversion IH; subst. constructor; [|assumption].
        simpl. intros [H|H]; [congruence|tauto].
Qed.

Lemma tail_clean (s : list N) : ~ In sep (Spec.tail sep s).
Proof.
  pose proof (split_clean s) as H. rewrite split_completed_tail in H.
  apply Forall_app in H. destruct H as [_ H]. inversion H; assumption.
Qed.

Lemma completed_clean (s : list N) :
  Forall (fun g => ~ In sep g) (Spec.completed sep s).
Proof.
  pose proof (split_clean s) as H. rewrite split_completed_tail in H.
  apply Forall_app in H. tauto.
Qed.

(** A stream without separator is its own tail and completes nothing. *)
Lemma split_no_sep (s : list N) : ~ In sep s -> split sep s = [s].
Proof.
  induction s as [|c s IH]; [reflexivity|]. intros H.
  rewrite split_cons. destruct (c =? sep) eqn:Ec.
  - apply N.eqb_eq in Ec. subst. simpl in H. tauto.
  - rewrite IH; [reflexivity|]. simpl in H. tauto.
Qed.

Lemma split_at_sep (a b : list N) :
  ~ In sep a -> split sep (a ++ sep :: b) = a :: split sep b.
Proof.
  induction a as [|c a IH]; intros H.
  - simpl app. rewrite split_cons, N.eqb_refl. reflexivity.
  - simpl app. rewrite split_cons.
    destruct (c =? sep) eqn:Ec.
    + apply N.eqb_eq in Ec. subst. simpl in H. tauto.
    + rewrite IH; [reflexivity|]. simpl in H. tauto.
Qed.

End SplitFacts.
(** ** UTF-8 *)

Module Utf8Facts.

Import Utf8 Tactics.

Lemma encode_app (a b : jsstring) : encode (a ++ b) = encode a ++ encode b.
Proof. apply flat_map_app. Qed.

Lemma encode_cp_octets (c : codepoint) : octets (encode_cp c).
Proof.
  unfold octets, encode_cp, surrogate.
  repeat branch; repeat constructor; lia.
Qed.

Lemma encode_octets (s : jsstring) : octets (encode s).
Proof.
  induction s as [|c s IH]; [constructor|].
  apply Forall_app. split; [apply encode_cp_octets|exact IH].
Qed.

(** Only the line feed is encoded with a line-feed octet. *)
Lemma encode_cp_LF (c : codepoint) : In LF (encode_cp c) -> c = LF.
Proof.
  unfold encode_cp, surrogate, LF. repeat branch; cbn [In]; intuition lia.
Qed.

Lemma mod_strip (k m x : N) :
  k mod m = 0 -> x < m -> (k + x) mod m = x.
Proof.
  intros Hk Hx. rewrite N.Div0.add_mod, Hk, N.add_0_l, N.Div0.mod_mod.
  apply N.mod_small, Hx.
Qed.

(** The decoder on a lead byte of each length and on a continuation byte
    within its bounds. *)
Lemma lead_1 (b : byte) : b <= 0x7F -> lead b = ([b], Start).
Proof. intros H. unfold lead. branch. reflexivity. Qed.

Lemma lead_2 (b : byte) :
  0xC2 <= b <= 0xDF -> lead b = ([], Pending (b mod 32) 1 0x80 0xBF).
Proof. intros H. unfold lead. do 2 branch. reflexivity. Qed.

Lemma lead_3 (b : byte) :
  0xE0 <= b <= 0xEF ->
  lead b = ([], Pending (b mod 16) 2 (if b =? 0xE0 then 0xA0 else 0x80)
                                     (if b =? 0xED then 0x9F else 0xBF)).
Proof. intros H. unfold lead. do 3 branch. reflexivity. Qed.

Lemma lead_4 (b : byte) :
  0xF0 <= b <= 0xF4 ->
  lead b = ([], Pending (b mod 8) 3 (if b =? 0xF0 then 0x90 else 0x80)
                                    (if b =? 0xF4 then 0x8F else 0xBF)).
Proof. intros H. unfold lead. do 4 branch. reflexivity. Qed.

Lemma step_continue (cp needed lower upper : N) (b : byte) :
  lower <= b <= upper ->
  step (Pending cp needed lower upper) b =
  if needed =? 1 then ([cp * 64 + b mod 64], Start)
  else ([], Pending (cp * 64 + b mod 64) (needed - 1) 0x80 0xBF).
Proof.
  intros H. unfold step.
  replace ((lower <=? b) && (b <=? upper)) with true; [reflexivity|].
  symmetry. apply andb_true_iff. rewrite !N.leb_le. exact H.
Qed.

Lemma decode_encode_cp (c : codepoint) (r : buffer) :
  scalar c = true ->
  decode_from Start (encode_cp c ++ r) = c :: decode_from Start r.
Proof.
  unfold scalar, encode_cp, surrogate. intros H. to_prop H.
  replace (c / 4096) with (c / 64 / 64) by (now rewrite N.Div0.div_div).
  replace (c / 262144) with (c / 64 / 64 / 64) by (now rewrite !N.Div0.div_div).
  repeat branch; cbn [app decode_from step].
  - rewrite lead_1 by lia. reflexivity.
  - rewrite lead_2 by lia. cbn [app decode_from].
    rewrite step_continue by lia. cbn [N.eqb Pos.eqb app].
    f_equal.
    rewrite !mod_strip by (try reflexivity; lia). lia.
  - rewrite lead_3 by lia. cbn [app decode_from].
    rewrite step_continue by bounds. cbn [N.eqb Pos.eqb app decode_from].
    change (2 - 1) with 1.
    rewrite step_continue by lia. cbn [N.eqb Pos.eqb app].
    f_equal.
    rewrite !mod_strip by (try reflexivity; lia). lia.
  - rewrite lead_4 by lia. cbn [app decode_from].
    rewrite step_continue by bounds. cbn [N.eqb Pos.eqb app decode_from].
    change (3 - 1) with 2.
    rewrite step_continue by lia. cbn [N.eqb Pos.eqb app decode_from].
    change (2 - 1) with 1.
    rewrite step_continue by lia. cbn [N.eqb Pos.eqb app].
    f_equal.
    rewrite !mod_strip by (try reflexivity; lia). lia.
Qed.

(** Decoding undoes encoding on well-formed text. *)
Lemma toString_encode (t : jsstring) :
  Forall (fun c => scalar c = true) t -> toString (encode t) = t.
Proof.
  unfold toString. induction 1 as [|c t Hc _ IH]; [reflexivity|].
  cbn [encode flat_map]. rewrite decode_encode_cp by assumption.
  f_equal. exact IH.
Qed.

End Utf8Facts.

(** ** Base64 *)

Module Base64Facts.

Import Base64 Tactics.

Lemma unbase64_alphabet (i : N) : i < 64 -> unbase64 (alphabet i) = Some i.
Proof.
  intros H. unfold alphabet. repeat branch; unfold unbase64; repeat branch;
    try (f_equal; lia).
Qed.

Lemma alphabet_not_pad (i : N) : (alphabet i =? PAD) = false.
Proof. apply N.eqb_neq. unfold alphabet, PAD. repeat branch; lia. Qed.

Lemma sextets_alphabet (i : N) (r : jsstring) :
  i < 64 -> sextets (alphabet i :: r) = i :: sextets r.
Proof.
  intros H. cbn [sextets]. rewrite alphabet_not_pad, unbase64_alphabet by exact H.
  reflexivity.
Qed.

Lemma sextets_pad (r : jsstring) : sextets (PAD :: r) = [].
Proof. reflexivity. Qed.

Lemma list_ind3 {A} (P : list A -> Prop) :
  P [] -> (forall a, P [a]) -> (forall a b, P [a; b]) ->
  (forall a b c r, P r -> P (a :: b :: c :: r)) ->
  forall l, P l.
Proof.
  intros H0 H1 H2 H3.
  fix IH 1. intros [|a [|b [|c r]]];
    [exact H0 | apply H1 | apply H2 | apply H3, IH].
Qed.

(** Node's decoder undoes the client's encoder. *)
Lemma decode_encode (bs : buffer) : octets bs -> decode (encode bs) = bs.
Proof.
  unfold decode, octets.
  induction bs as [|a|a b|a b c r IH] using list_ind3; intros H.
  - reflexivity.
  - inversion_clear H. cbn [encode].
    rewrite !sextets_alphabet, sextets_pad by lia.
    cbn [octets_of]. f_equal. lia.
  - inversion_clear H as [|? ? Ha H']. inversion_clear H' as [|? ? Hb _].
    cbn [encode]. rewrite !sextets_alphabet, sextets_pad by lia.
    cbn [octets_of]. repeat f_equal; lia.
  - inversion_clear H as [|? ? Ha H']. inversion_clear H' as [|? ? Hb H''].
    inversion_clear H'' as [|? ? Hc Hr].
    cbn [encode]. rewrite !sextets_alphabet by lia.
    cbn [octets_of]. rewrite (IH Hr). repeat f_equal; lia.
Qed.

End Base64Facts.

(** ** [Number] on decimal numerals *)

Module NumberFacts.

Import JsNumber Spec Tactics.

Lemma digit_numeral (d : N) : d < 10 -> digit 10 (48 + d) = Some (Z.of_N d).
Proof.
  intros H. unfold digit. branch.
  replace (48 + d - 48) with d by lia.
  destruct (Z.ltb_spec (Z.of_N d) 10); [reflexivity|lia].
Qed.

Lemma span_digits_numeral (ds : list N) (acc n : Z) :
  digits ds ->
  span_digits 10 acc n (numeral ds) =
  (fold_left (fun a d => (a * 10 + Z.of_N d)%Z) ds acc,
   (n + Z.of_nat (List.length ds))%Z, []).
Proof.
  intros H. revert acc n. induction H as [|d ds Hd _ IH]; intros acc n.
  - cbn. rewrite Z.add_0_r. reflexivity.
  - cbn [numeral map span_digits]. rewrite digit_numeral by exact Hd.
    fold (numeral ds). rewrite IH. cbn [fold_left List.length].
    f_equal. f_equal. lia.
Qed.

Lemma white_space_numeral (d : N) : d < 10 -> white_space (48 + d) = false.
Proof.
  intros H. unfold white_space.
  repeat (apply orb_false_iff; split);
    try (apply andb_false_iff); rewrite ?N.leb_gt, ?N.eqb_neq; lia.
Qed.

Lemma trim_start_numeral (ds : list N) :
  digits ds -> trim_start (numeral ds) = numeral ds.
Proof.
  intros H. destruct H as [|d ds Hd _]; [reflexivity|].
  cbn [numeral map trim_start]. rewrite white_space_numeral by exact Hd.
  reflexivity.
Qed.

Lemma trim_numeral (ds : list N) : digits ds -> trim (numeral ds) = numeral ds.
Proof.
  intros H. unfold trim. rewrite trim_start_numeral by exact H.
  unfold numeral at 1. rewrite <- map_rev. fold (numeral (rev ds)).
  rewrite trim_start_numeral by (apply Forall_rev, H).
  unfold numeral. rewrite <- map_rev, rev_involutive. reflexivity.
Qed.

Lemma non_decimal_numeral (ds : list N) :
  digits ds -> non_decimal (numeral ds) = None.
Proof.
  intros H. destruct H as [|d1 ds H1 H]; [reflexivity|].
  destruct H as [|d2 ds H2 H]; [reflexivity|].
  cbn [numeral map non_decimal].
  repeat (branch; cbn [orb negb Z.eqb]); try reflexivity.
  all: rewrite orb_true_r; reflexivity.
Qed.

Lemma unsigned_literal_numeral (neg : bool) (ds : list N) :
  digits ds -> ds <> [] ->
  unsigned_literal neg (numeral ds) = to_double neg (numeral_value ds) 0.
Proof.
  intros H Hne. unfold unsigned_literal.
  destruct (list_eq_dec N.eq_dec (numeral ds) (lit "Infinity")) as [E|_].
  - exfalso. destruct H as [|d ds Hd _]; [congruence|].
    assert (E' : Some (48 + d) = Some 73) by exact (f_equal (@hd_error N) E).
    assert (48 + d = 73) by congruence. lia.
  - unfold decimal_literal. rewrite span_digits_numeral by exact H.
    replace (0 + Z.of_nat (List.length ds) + 0 =? 0)%Z with false.
    + reflexivity.
    + symmetry. apply Z.eqb_neq. destruct ds; [congruence|]. cbn [List.length]. lia.
Qed.

(** A decimal numeral converts to the double nearest to its value. *)
Lemma StringToNumber_numeral (ds : list N) :
  digits ds -> ds <> [] ->
  StringToNumber (numeral ds) = to_double false (numeral_value ds) 0.
Proof.
  intros H Hne. unfold StringToNumber. rewrite trim_numeral by exact H.
  pose proof (non_decimal_numeral ds H) as Hnd.
  pose proof (unsigned_literal_numeral false ds H Hne) as Hu.
  destruct ds as [|d ds]; [congruence|].
  change (numeral (d :: ds)) with ((48 + d) :: numeral ds) in *.
  cbv beta iota. rewrite Hnd. inversion_clear H as [|? ? Hd _].
  do 2 branch. exact Hu.
Qed.

End NumberFacts.

(** ** Integers that a double holds exactly *)

Module DoubleFacts.

Import JsNumber.

Lemma digits2_size (p : positive) : digits2_pos p = Pos.size p.
Proof. induction p; simpl; congruence. Qed.

Lemma digits2_shift (p k : positive) :
  digits2_pos (Pos.iter xO p k) = (digits2_pos p + k)%positive.
Proof.
  induction k using Pos.peano_ind.
  - simpl. lia.
  - rewrite Pos.iter_succ. simpl. rewrite IHk. lia.
Qed.

Lemma Zpos_shift (p k : positive) :
  Zpos (Pos.iter xO p k) = (Zpos p * 2 ^ Zpos k)%Z.
Proof.
  induction k using Pos.peano_ind.
  - simpl. lia.
  - rewrite Pos.iter_succ, Pos2Z.inj_xO, IHk, Pos2Z.inj_succ, Z.pow_succ_r by lia.
    lia.
Qed.

Lemma digits2_bound (p : positive) :
  (Zpos p < 2 ^ 53)%Z -> (Zpos (digits2_pos p) <= 53)%Z.
Proof.
  intros H. rewrite digits2_size.
  pose proof (Pos.size_le p) as Hle.
  destruct (Z.le_gt_cases (Zpos (Pos.size p)) 53) as [|Hgt]; [assumption|exfalso].
  assert (2 ^ 54 <= 2 ^ Zpos (Pos.size p))%Z by (apply Z.pow_le_mono_r; lia).
  assert (Zpos (2 ^ Pos.size p) = 2 ^ Zpos (Pos.size p))%Z by apply Pos2Z.inj_pow.
  assert (Zpos (2 ^ Pos.size p) <= Zpos p~0)%Z by exact Hle.
  change (2 ^ 54)%Z with (2 * 2 ^ 53)%Z in *. lia.
Qed.

(** A positive integer below 2^53 rounds to itself: the significand is the
    integer shifted to 53 bits, the exponent undoes the shift. *)
Lemma binary_round_exact (neg : bool) (p : positive) :
  (Zpos p < 2 ^ 53)%Z ->
  exists m e,
    binary_round prec emax neg p 0 = S754_finite neg m e /\
    (e <= 0)%Z /\ (Zpos m = Zpos p * 2 ^ (- e))%Z.
Proof.
  intros H. pose proof (digits2_bound p H) as Hd.
  unfold binary_round, shl_align, fexp, emin, prec, emax.
  set (d := digits2_pos p) in *.
  replace (Z.max (Zpos d + 0 - 53) (3 - 1024 - 53) - 0)%Z with (Zpos d - 53)%Z by lia.
  replace (Z.max (Zpos d + 0 - 53) (3 - 1024 - 53))%Z with (Zpos d - 53)%Z by lia.
  destruct (Zpos d - 53)%Z as [|k|k] eqn:Ek; try lia.
  - exists p, 0%Z. split; [|split; [lia|simpl; lia]].
    unfold binary_round_aux, shr_fexp, fexp, emin, Zdigits2. fold d.
    replace (Z.max (Zpos d + 0 - 53) (3 - 1024 - 53) - 0)%Z with 0%Z by lia.
    cbn [shr shr_record_of_loc shr_m loc_of_shr_record round_nearest_even].
    cbn [Zdigits2]. fold d. 
    replace (Z.max (Zpos d + 0 - 53) (3 - 1024 - 53) - 0)%Z with 0%Z by lia.
    cbn [shr shr_m]. reflexivity.
  - exists (Pos.iter xO p k), (Zneg k). split; [|split; [lia|]].
    + unfold binary_round_aux, shr_fexp, fexp, emin, Zdigits2.
      rewrite digits2_shift. fold d.
      replace (Z.max (Zpos (d + k) + Z.neg k - 53) (3 - 1024 - 53) - Z.neg k)%Z
        with 0%Z by lia.
      cbn [shr shr_record_of_loc shr_m loc_of_shr_record round_nearest_even].
      rewrite digits2_shift. fold d.
      replace (Z.max (Zpos (d + k) + Z.neg k - 53) (3 - 1024 - 53) - Z.neg k)%Z
        with 0%Z by lia.
      cbn [shr shr_m].
      destruct (Z.leb_spec (Zneg k) (1024 - 53)); [reflexivity|lia].
    + rewrite Zpos_shift. reflexivity.
Qed.

End DoubleFacts.

(** ** The newline-framed relay *)

Module FramedFacts.

Import Platform Spec Framed.

Lemma frames_app (c1 c2 : list call) : frames (c1 ++ c2) = frames c1 ++ frames c2.
Proof. apply flat_map_app. Qed.

Lemma run_app (evs1 evs2 : list event) (s : session) :
  run s (evs1 ++ evs2) =
  (fst (run s evs1) ++ fst (run (snd (run s evs1)) evs2),
   snd (run (snd (run s evs1)) evs2)).
Proof.
  revert s. induction evs1 as [|e evs1 IH]; intros s.
  - simpl. destruct (run s evs2); reflexivity.
  - cbn [run app]. destruct (handle s e) as [c s1]. rewrite IH.
    destruct (run s1 evs1) as [c1 s2]. cbn [fst snd].
    destruct (run s2 evs2) as [c2 s3]. cbn [fst snd]. rewrite app_assoc. reflexivity.
Qed.

Lemma run_cons (e : event) (evs : list event) (s : session) :
  run s (e :: evs) =
  (fst (handle s e) ++ fst (run (snd (handle s e)) evs),
   snd (run (snd (handle s e)) evs)).
Proof.
  cbn [run]. destruct (handle s e) as [c s1]. cbn [fst snd].
  destruct (run s1 evs); reflexivity.
Qed.

(** One ['data'] event: the tail becomes the tail of [rest + chunk]; the
    segments completed go out as TEXT frames, the empty ones apart, when the
    client is OPEN, and nowhere otherwise. *)
Lemma on_data_rest (chunk : list N) (s : session) :
  rest (snd (on_data chunk s)) = tail LF (rest s ++ Utf8.toString chunk).
Proof.
  unfold on_data, tail. destruct (pop (split LF _)) as [last msgs]. reflexivity.
Qed.

Lemma on_data_wire (chunk : list N) (s : session) :
  wire (snd (on_data chunk s)) = wire s.
Proof. unfold on_data. destruct (pop _). reflexivity. Qed.

Lemma on_data_frames (chunk : list N) (s : session) :
  frames (fst (on_data chunk s)) =
  if ws_open s
  then map TEXT (nonempty (completed LF (rest s ++ Utf8.toString chunk)))
  else [].
Proof.
  unfold on_data, completed. destruct (pop (split LF _)) as [last msgs].
  cbn [fst snd]. induction msgs as [|m msgs IH]; cbn [flat_map nonempty filter].
  - destruct (ws_open s); reflexivity.
  - rewrite frames_app, IH. unfold nonempty.
    destruct (JS.falsy m); cbn [negb]; destruct (ws_open s); reflexivity.
Qed.

Lemma handle_rest (e : event) (s : session) :
  rest (snd (handle s e)) =
  match e with
  | tcp_data chunk => tail LF (rest s ++ Utf8.toString chunk)
  | _ => rest s
  end.
Proof.
  destruct s as [r [ws t k]].
  destruct e; try apply on_data_rest; destruct ws; reflexivity.
Qed.

Lemma handle_frames (e : event) (s : session) :
  frames (fst (handle s e)) =
  match e with
  | tcp_data chunk =>
      if ws_open s
      then map TEXT (nonempty (completed LF (rest s ++ Utf8.toString chunk)))
      else []
  | tcp_end =>
      if negb (JS.falsy (rest s)) && ws_open s then [TEXT (rest s)] else []
  | _ => []
  end.
Proof.
  destruct s as [r [ws t k]].
  destruct e; try apply on_data_frames; destruct ws, k, r; reflexivity.
Qed.

Lemma handle_open (e : event) (s : session) :
  ws_open (snd (handle s e)) = ws_open s && negb (closes e).
Proof.
  destruct s as [r [ws t k]]. unfold ws_open.
  destruct e; try (cbn [handle]; rewrite on_data_wire);
    destruct ws, t; reflexivity.
Qed.

(** Once the client is not OPEN no frame is sent, whatever arrives. *)
Lemma run_not_open (evs : list event) (s : session) :
  ws_open s = false -> frames (fst (run s evs)) = [].
Proof.
  revert s. induction evs as [|e evs IH]; intros s H; [reflexivity|].
  rewrite run_cons. cbn [fst]. rewrite frames_app, IH.
  - rewrite handle_frames, H, andb_false_r. destruct e; reflexivity.
  - rewrite handle_open, H. reflexivity.
Qed.

(** While the client stays OPEN: the frames are the non-empty segments the
    chunk texts complete, in stream order, and [rest] is what follows the
    last delimiter. *)
Lemma run_quiet (evs : list event) (s : session) :
  Forall (fun e => quiet e = true) evs ->
  ws_open s = true -> ~ In LF (rest s) ->
  frames (fst (run s evs)) =
    map TEXT (nonempty (completed LF (rest s ++ stream_text evs))) /\
  rest (snd (run s evs)) = tail LF (rest s ++ stream_text evs) /\
  ws_open (snd (run s evs)) = true.
Proof.
  intros Hq. revert s. induction Hq as [|e evs He _ IH]; intros s Ho Hc.
  - cbn [run stream_text flat_map fst snd]. rewrite app_nil_r.
    unfold completed, tail. rewrite (split_no_sep LF _ Hc). auto.
  - rewrite run_cons. cbn [fst snd].
    assert (Ho1 : ws_open (snd (handle s e)) = true).
    { rewrite handle_open, Ho. destruct e; try discriminate; reflexivity. }
    assert (Hc1 : ~ In LF (rest (snd (handle s e)))).
    { rewrite handle_rest. destruct e; try assumption. apply tail_clean. }
    destruct (IH _ Ho1 Hc1) as (Hf & Hr & Ho2).
    rewrite frames_app, Hf, Hr, handle_frames, handle_rest, Ho.
    unfold stream_text. cbn [flat_map]. fold (stream_text evs).
    destruct e; try discriminate; cbn [app]; auto.
    rewrite app_assoc,
      (completed_app LF (rest s ++ Utf8.toString chunk) (stream_text evs)),
      (tail_app LF (rest s ++ Utf8.toString chunk) (stream_text evs)).
    unfold nonempty. rewrite filter_app, map_app. auto.
Qed.

End FramedFacts.

(** ** Segments of encoded text *)

Module SegmentFacts.

Import Utf8 Utf8Facts Platform Spec Framed FramedFacts Tactics.

Lemma split_clean_prefix (sep : N) (a s : list N) :
  ~ In sep a ->
  split sep (a ++ s) =
  match split sep s with
  | h :: t => (a ++ h) :: t
  | [] => [a]
  end.
Proof.
  induction a as [|c a IH]; intros H.
  - simpl app. destruct (split sep s) eqn:E; [|reflexivity].
    now apply split_not_nil in E.
  - simpl app. rewrite split_cons.
    destruct (c =? sep) eqn:Ec.
    + apply N.eqb_eq in Ec. subst. simpl in H. tauto.
    + rewrite IH by (simpl in H; tauto).
      destruct (split sep s); reflexivity.
Qed.

Lemma encode_cp_not_nil (c : N) : encode_cp c <> [].
Proof. unfold encode_cp. repeat branch; discriminate. Qed.

Lemma encode_falsy (m : list N) : JS.falsy (encode m) = JS.falsy m.
Proof.
  destruct m as [|c m]; [reflexivity|]. cbn [encode flat_map JS.falsy].
  pose proof (encode_cp_not_nil c). destruct (encode_cp c); [congruence|reflexivity].
Qed.

(** Splitting the encoded text at the line-feed octet gives the encoded
    segments of the text. *)
Lemma split_encode (t : list N) :
  split LF (encode t) = map encode (split LF t).
Proof.
  induction t as [|c t IH]; [reflexivity|].
  cbn [encode flat_map]. fold (encode t). rewrite (split_cons LF c t).
  destruct (c =? LF) eqn:Ec.
  - apply N.eqb_eq in Ec. subst c.
    change (encode_cp LF) with [LF]. simpl app.
    rewrite split_cons, N.eqb_refl, IH. reflexivity.
  - rewrite split_clean_prefix, IH.
    + destruct (split LF t) as [|h r] eqn:E; [now apply split_not_nil in E|].
      cbn [map encode flat_map]. reflexivity.
    + intros H. apply encode_cp_LF in H. apply N.eqb_neq in Ec. congruence.
Qed.

Lemma pop_map {A B} (f : A -> B) (l : list A) :
  pop (map f l) = (option_map f (fst (pop l)), map f (snd (pop l))).
Proof.
  induction l as [|a l IH]; [reflexivity|].
  destruct l as [|b l]; [reflexivity|].
  cbn [map]. rewrite !pop_cons2. cbn [map] in IH. rewrite IH. reflexivity.
Qed.

Lemma completed_encode (t : list N) :
  completed LF (encode t) = map encode (completed LF t).
Proof. unfold completed. rewrite split_encode, pop_map. reflexivity. Qed.

Lemma tail_encode (t : list N) : tail LF (encode t) = encode (tail LF t).
Proof.
  unfold tail. rewrite split_encode, pop_map. cbn [fst].
  destruct (fst (pop (split LF t))); reflexivity.
Qed.

Lemma nonempty_encode (l : list (list N)) :
  nonempty (map encode l) = map encode (nonempty l).
Proof.
  unfold nonempty. induction l as [|m l IH]; [reflexivity|].
  cbn [map filter]. rewrite encode_falsy, IH.
  destruct (JS.falsy m); reflexivity.
Qed.

Lemma encode_concat (ts : list (list N)) :
  encode (List.concat ts) = List.concat (map encode ts).
Proof.
  induction ts as [|t ts IH]; [reflexivity|].
  cbn [List.concat map]. rewrite encode_app, IH. reflexivity.
Qed.

(** The text a relay sees when every chunk is well-formed UTF-8: the text
    that was encoded. *)
Lemma stream_text_encoded (ts : list (list N)) :
  Forall well_formed ts ->
  stream_text (map tcp_data (map encode ts)) = List.concat ts.
Proof.
  induction 1 as [|t ts Ht _ IH]; [reflexivity|].
  cbn [map stream_text flat_map List.concat]. fold (stream_text (map tcp_data (map encode ts))).
  rewrite toString_encode by exact Ht. rewrite IH. reflexivity.
Qed.

Lemma quiet_data (chunks : list (list N)) :
  Forall (fun e => quiet e = true) (map tcp_data chunks).
Proof. induction chunks; constructor; auto. Qed.

Lemma payload_text (l : list (list N)) : map payload (map TEXT l) = map encode l.
Proof. rewrite map_map. reflexivity. Qed.

(** The frames a fresh session sends for a sequence of chunks, client OPEN
    throughout: the non-empty segments that the chunk texts complete. *)
Lemma data_frames (chunks : list (list N)) :
  frames (fst (run fresh (map tcp_data chunks))) =
    map TEXT (nonempty (complete_segments (stream_text (map tcp_data chunks)))) /\
  rest (snd (run fresh (map tcp_data chunks))) =
    remainder (stream_text (map tcp_data chunks)) /\
  ws_open (snd (run fresh (map tcp_data chunks))) = true.
Proof.
  apply (run_quiet _ fresh (quiet_data chunks)); [reflexivity|].
  simpl. tauto.
Qed.

End SegmentFacts.

(** ** Backend to client: the claims about the reassembler *)

Module Reassembler.

Import Utf8 Utf8Facts Platform Spec Framed FramedFacts SegmentFacts.

Lemma run_clean (evs : list event) (s : session) :
  ~ In LF (rest s) -> ~ In LF (rest (snd (run s evs))).
Proof.
  revert s. induction evs as [|e evs IH]; intros s H; [exact H|].
  rewrite run_cons. cbn [snd]. apply IH. rewrite handle_rest.
  destruct e; try exact H. apply tail_clean.
Qed.

(** C7.  Whatever events a session has handled since it was created with
    an empty [rest], [rest] holds no line feed, and neither does its UTF-8
    form: the invariant of the residual tail. *)
Theorem rest_never_holds_delimiter (evs : list event) :
  Forall (fun c => c <> LF) (rest (snd (run fresh evs))) /\
  Forall (fun b => b <> LF) (Utf8.encode (rest (snd (run fresh evs)))).
Proof.
  assert (H : ~ In LF (rest (snd (run fresh evs)))).
  { apply run_clean. simpl. tauto. }
  split; apply Forall_forall; intros x Hx ->.
  - exact (H Hx).
  - apply H. unfold encode in Hx. apply in_flat_map in Hx.
    destruct Hx as (c & Hc & Hin). apply encode_cp_LF in Hin. now subst.
Qed.

Lemma nonempty_singleton (m : list N) :
  nonempty [m] = if JS.falsy m then [] else [m].
Proof. unfold nonempty. cbn. destruct (JS.falsy m); reflexivity. Qed.

(** Payloads of the frames sent for well-formed chunks, up to ['end'] and
    past an event that closes the client. *)
Lemma delivered_payloads
    (texts : list (list N)) (c : event) (after : list event) :
  Forall well_formed texts -> closes c = true ->
  let chunks := map Utf8.encode texts in
  let stream := List.concat chunks in
  let delivered evs := map payload (frames (fst (run fresh evs))) in
  delivered (map tcp_data chunks) = nonempty (complete_segments stream) /\
  delivered (map tcp_data chunks ++ [tcp_end]) =
    nonempty (complete_segments stream) ++ nonempty [remainder stream] /\
  delivered (map tcp_data chunks ++ c :: after) =
    nonempty (complete_segments stream).
Proof.
  intros Hw Hc chunks stream delivered.
  destruct (data_frames chunks) as (Hf & Hr & Ho).
  unfold chunks in Hf, Hr. rewrite stream_text_encoded in Hf, Hr by exact Hw.
  fold chunks in Hf, Hr.
  assert (Hs : stream = encode (List.concat texts)).
  { unfold stream, chunks. symmetry. apply encode_concat. }
  assert (H1 : delivered (map tcp_data chunks) = nonempty (complete_segments stream)).
  { unfold delivered. rewrite Hf, payload_text, Hs.
    unfold complete_segments. rewrite completed_encode, nonempty_encode.
    reflexivity. }
  split; [exact H1|split].
  - unfold delivered in *. rewrite run_app. cbn [fst]. rewrite frames_app, map_app, H1.
    f_equal. rewrite run_cons. cbn [run fst]. rewrite app_nil_r, handle_frames, Hr, Ho.
    rewrite andb_true_r, Hs. unfold remainder. rewrite tail_encode.
    rewrite nonempty_singleton, encode_falsy.
    destruct (JS.falsy (tail LF (List.concat texts))); reflexivity.
  - unfold delivered in *. rewrite run_app. cbn [fst]. rewrite frames_app, map_app, H1.
    rewrite run_cons. cbn [fst]. rewrite frames_app, handle_frames, run_not_open.
    + destruct c; try discriminate; rewrite app_nil_r; reflexivity.
    + rewrite handle_open, Hc, andb_false_r. reflexivity.
Qed.

(** What the relay does deliver when no chunk boundary cuts a character
    (every chunk well-formed UTF-8): the frames sent while the client is
    OPEN carry exactly the non-empty complete segments of the concatenated
    chunks, in stream order; ['end'] adds the remainder once when it is not
    empty; and after an event that leaves the client not OPEN nothing more
    is sent, whatever arrives. *)
Theorem relay_delivers_segments
    (texts : list (list N)) (c : event) (after : list event) :
  Forall well_formed texts -> closes c = true ->
  let chunks := map Utf8.encode texts in
  let stream := List.concat chunks in
  let delivered evs := map payload (frames (fst (run fresh evs))) in
  delivered (map tcp_data chunks) = nonempty (complete_segments stream) /\
  delivered (map tcp_data chunks ++ [tcp_end]) =
    nonempty (complete_segments stream) ++ nonempty [remainder stream] /\
  delivered (map tcp_data chunks ++ c :: after) =
    nonempty (complete_segments stream).
Proof. exact (delivered_payloads texts c after). Qed.

Lemma relay_delivers_segments_witness :
  let texts := [[97; 10; 98]; [99; 10; 10; 100]] in
  Forall well_formed texts /\ closes ws_closed = true /\
  map payload (frames (fst (run fresh
    (map tcp_data (map Utf8.encode texts) ++ [tcp_end])))) =
  [[97]; [98; 99]; [100]].
Proof.
  intros texts.
  assert (Hw : Forall well_formed texts) by (repeat constructor).
  assert (Hc : closes ws_closed = true) by reflexivity.
  split; [exact Hw|split; [exact Hc|]].
  exact (proj1 (proj2 (relay_delivers_segments texts ws_closed [] Hw Hc))).
Defined.

(** C1, a defect of the code.  The backend sends the line of U+00E9 as the
    chunks [C3] and [A9 0A], a well-formed UTF-8 stream cut inside a
    character.
    The listener decodes each chunk by itself before it joins it to [rest],
    so the client is sent the TEXT frame of two U+FFFD (octets EF BF BD EF
    BF BD), where C1 has it receive the complete segment of the
    concatenated chunks, the octets C3 A9, which are the text U+00E9. *)
Lemma split_character_is_mangled :
  frames (fst (run fresh [tcp_data [0xC3]; tcp_data [0xA9; 10]])) =
    [TEXT [0xFFFD; 0xFFFD]] /\
  payload (TEXT [0xFFFD; 0xFFFD]) = [0xEF; 0xBF; 0xBD; 0xEF; 0xBF; 0xBD] /\
  nonempty (complete_segments (List.concat [[0xC3]; [0xA9; 10]])) = [[0xC3; 0xA9]] /\
  Utf8.toString [0xC3; 0xA9] = [0xE9].
Proof. repeat split; vm_compute; reflexivity. Qed.

(** C8 (amended).  For chunks that are each well-formed UTF-8 the relay is
    exact on the octets: over the whole stream the payloads of the frames
    sent are the non-empty segments of the concatenated chunks, delimiter
    stripped, and no payload holds a delimiter. *)
Theorem relay_is_exact_on_text (texts : list (list N)) :
  Forall well_formed texts ->
  let chunks := map Utf8.encode texts in
  let sent := frames (fst (run fresh (map tcp_data chunks ++ [tcp_end]))) in
  map payload sent = nonempty (split LF (List.concat chunks)) /\
  Forall (fun f => ~ In LF (payload f)) sent.
Proof.
  intros Hw chunks sent.
  assert (H : map payload sent = nonempty (split LF (List.concat chunks))).
  { unfold sent, chunks.
    rewrite (proj1 (proj2 (delivered_payloads texts ws_closed [] Hw eq_refl))).
    rewrite (split_completed_tail LF (List.concat (map encode texts))).
    unfold nonempty. rewrite filter_app. reflexivity. }
  split; [exact H|].
  apply Forall_forall. intros f Hf.
  assert (Hin : In (payload f) (map payload sent)) by (apply in_map, Hf).
  rewrite H in Hin. unfold nonempty in Hin. apply filter_In in Hin.
  destruct Hin as [Hin _].
  pose proof (split_clean LF (List.concat chunks)) as Hc.
  rewrite Forall_forall in Hc. exact (Hc _ Hin).
Qed.

Lemma relay_is_exact_on_text_witness :
  let texts := [[0xE9; 10; 0x20AC]; [10]] in
  Forall well_formed texts /\
  map payload (frames (fst (run fresh
    (map tcp_data (map Utf8.encode texts) ++ [tcp_end])))) =
  [[0xC3; 0xA9]; [0xE2; 0x82; 0xAC]].
Proof.
  intros texts.
  assert (Hw : Forall well_formed texts) by (repeat constructor).
  split; [exact Hw|].
  exact (proj1 (relay_is_exact_on_text texts Hw)).
Defined.

(** C8, as stated, fails: an octet that is not UTF-8 is relayed as the
    three octets of U+FFFD. *)
Lemma invalid_octet_is_replaced :
  frames (fst (run fresh [tcp_data [0xFF; 10]; tcp_end])) = [TEXT [0xFFFD]] /\
  payload (TEXT [0xFFFD]) = [0xEF; 0xBF; 0xBD] /\
  nonempty (split LF [0xFF; 10]) = [[0xFF]].
Proof. repeat split; vm_compute; reflexivity. Qed.

End Reassembler.

(** ** The two variants side by side *)

Module VariantFacts.

Import Platform Spec.

Lemma control_app (c1 c2 : list call) : control (c1 ++ c2) = control c1 ++ control c2.
Proof. apply filter_app. Qed.

Lemma on_data_control (chunk : list N) (s : Framed.session) :
  control (fst (Framed.on_data chunk s)) = [].
Proof.
  unfold Framed.on_data. destruct (pop _) as [last msgs]. cbn [fst].
  induction msgs as [|m msgs IH]; [reflexivity|].
  cbn [flat_map]. rewrite control_app, IH.
  destruct (JS.falsy m), (Framed.ws_open s); reflexivity.
Qed.

(** Event by event the raw variant makes the calls of the framed one, the
    frames apart, and leaves the sockets and the timer in the same state. *)
Lemma handle_simulation (e : event) (s : Framed.session) :
  control (fst (Raw.handle (Framed.wire s) e)) = control (fst (Framed.handle s e)) /\
  snd (Raw.handle (Framed.wire s) e) = Framed.wire (snd (Framed.handle s e)).
Proof.
  destruct s as [r [ws t k]]. destruct e.
  2: { cbn [Framed.handle Raw.handle arrive Framed.wire Framed.rest].
       rewrite on_data_control, FramedFacts.on_data_wire. unfold Raw.on_data.
       destruct ws; split; reflexivity. }
  all: destruct ws, t, k, r; split; reflexivity.
Qed.

Lemma raw_run_cons (e : event) (evs : list event) (w : Raw.session) :
  Raw.run w (e :: evs) =
  (fst (Raw.handle w e) ++ fst (Raw.run (snd (Raw.handle w e)) evs),
   snd (Raw.run (snd (Raw.handle w e)) evs)).
Proof.
  cbn [Raw.run]. destruct (Raw.handle w e) as [c s1]. cbn [fst snd].
  destruct (Raw.run s1 evs); reflexivity.
Qed.

Lemma run_simulation (evs : list event) (s : Framed.session) :
  control (fst (Raw.run (Framed.wire s) evs)) = control (fst (Framed.run s evs)) /\
  snd (Raw.run (Framed.wire s) evs) = Framed.wire (snd (Framed.run s evs)).
Proof.
  revert s. induction evs as [|e evs IH]; intros s; [split; reflexivity|].
  rewrite raw_run_cons, FramedFacts.run_cons. cbn [fst snd].
  destruct (handle_simulation e s) as [Hc Hs]. rewrite Hs, !control_app, Hc.
  destruct (IH (snd (Framed.handle s e))) as [Hc' Hs']. rewrite Hc', Hs'.
  split; reflexivity.
Qed.

End VariantFacts.

(** ** Client to backend, teardown and the keep-alive: the claims *)

Module Lifecycle.

Import Platform Spec FramedFacts VariantFacts.

Lemma last_octet_app (b : list N) (x : N) : last_octet (b ++ [x]) = Some x.
Proof. unfold last_octet. rewrite pop_app by discriminate. reflexivity. Qed.

Lemma strict_eq_true (x : option N) (v : N) :
  strict_eq x v = true <-> x = Some v.
Proof.
  destruct x as [y|]; simpl; [|split; discriminate].
  rewrite N.eqb_eq. split; congruence.
Qed.

(** C2 (amended).  Both variants write one buffer per message, and it ends
    with the delimiter: the payload itself when its last octet is the
    delimiter, the payload and one delimiter otherwise; an empty message is
    written as the delimiter alone. *)
Theorem framer_terminates_message
    (data : message_data) (s : Framed.session) (w : Raw.session) :
  exists out,
    fst (Framed.on_message data s) = [tcp_write out] /\
    fst (Raw.on_message data w) = [tcp_write out] /\
    last_octet out = Some LF /\
    (last_octet (to_buffer data) = Some LF -> out = to_buffer data) /\
    (last_octet (to_buffer data) <> Some LF -> out = to_buffer data ++ [LF]) /\
    (to_buffer data = [] -> out = [LF]).
Proof.
  unfold Framed.on_message, Raw.on_message. cbn [fst].
  change (Utf8.encode [LF]) with [LF].
  destruct (strict_eq (last_octet (to_buffer data)) 10) eqn:E.
  - apply strict_eq_true in E. exists (to_buffer data).
    split; [reflexivity|]. split; [reflexivity|]. split; [exact E|].
    split; [reflexivity|]. split; [intros H; now elim H|].
    intros H. rewrite H in E. discriminate.
  - exists (to_buffer data ++ [LF]).
    split; [reflexivity|]. split; [reflexivity|].
    split; [apply last_octet_app|]. split; [|split; [reflexivity|]].
    + intros H. apply strict_eq_true in H. unfold LF in H. congruence.
    + intros ->. reflexivity.
Qed.

(** C2, as stated, fails: a message that ends with two delimiters is written
    unchanged, so what is written does not end with exactly one. *)
Lemma doubled_delimiter_is_kept :
  fst (Framed.on_message (data_buffer [97; 10; 10]) Framed.fresh) =
    [tcp_write [97; 10; 10]] /\
  fst (Raw.on_message (data_buffer [97; 10; 10]) Raw.fresh) =
    [tcp_write [97; 10; 10]] /\
  ends_with_one_delimiter [97; 10; 10] = false.
Proof. repeat split. Qed.

(** C9 (amended).  The two variants write the same octets to the backend
    for every client message.  Over any sequence of events they make the
    same calls, the frames sent to the client apart, and leave the sockets
    and the timer in the same state; their ['connection'] handlers decide
    alike and make the same calls but for the text of the 1008 reason.
    Towards the client they differ: on a chunk met by an OPEN client the raw
    variant sends that chunk as one BINARY frame, the framed variant the
    non-empty segments completed by [rest + chunk] as TEXT frames, so a
    chunk without delimiter is forwarded by the one and held back by the
    other. *)
Theorem variants_agree_towards_backend :
  (forall data s w, fst (Framed.on_message data s) = fst (Raw.on_message data w)) /\
  (forall evs s,
     control (fst (Raw.run (Framed.wire s) evs)) = control (fst (Framed.run s evs)) /\
     snd (Raw.run (Framed.wire s) evs) = Framed.wire (snd (Framed.run s evs))) /\
  (forall url,
     map blank_reason (fst (Raw.connection url)) =
       map blank_reason (fst (Framed.connection url)) /\
     snd (Raw.connection url) = option_map Framed.wire (snd (Framed.connection url))) /\
  (forall chunk w,
     frames (fst (Raw.handle w (tcp_data chunk))) =
     if is_open (ws_readyState w) then [BINARY chunk] else []) /\
  (forall chunk s,
     frames (fst (Framed.handle s (tcp_data chunk))) =
     if Framed.ws_open s
     then map TEXT (nonempty (completed LF (Framed.rest s ++ Utf8.toString chunk)))
     else []) /\
  (forall chunk,
     ~ In LF (Utf8.toString chunk) ->
     frames (fst (Raw.handle Raw.fresh (tcp_data chunk))) = [BINARY chunk] /\
     frames (fst (Framed.handle Framed.fresh (tcp_data chunk))) = []).
Proof.
  split; [reflexivity|]. split; [exact run_simulation|]. split; [|split; [|split]].
  - intros url. unfold Raw.connection, Framed.connection, decode_path,
      Raw.open_target, Framed.open_target.
    destruct (nth_error _ 0) as [host|]; [|split; reflexivity].
    destruct (JS.falsy host || JsNumber.falsy _); [split; reflexivity|].
    destruct (legal_port _ && legal_host _); split; reflexivity.
  - intros chunk [ws t k]. destruct ws; reflexivity.
  - intros chunk s. apply (handle_frames (tcp_data chunk) s).
  - intros chunk H. split; [reflexivity|].
    rewrite (handle_frames (tcp_data chunk) Framed.fresh).
    cbn [Framed.ws_open Framed.fresh Framed.wire ws_readyState is_open Framed.rest app].
    unfold completed. rewrite (split_no_sep LF _ H). reflexivity.
Qed.

(** C9 at a chunk without delimiter, the text "ab": the raw variant forwards
    it at once, the framed variant holds it back. *)
Lemma variants_agree_towards_backend_witness :
  ~ In LF (Utf8.toString (lit "ab")) /\
  frames (fst (Raw.handle Raw.fresh (tcp_data (lit "ab")))) = [BINARY (lit "ab")] /\
  frames (fst (Framed.handle Framed.fresh (tcp_data (lit "ab")))) = [].
Proof.
  assert (H : ~ In LF (Utf8.toString (lit "ab"))).
  { vm_compute. intros [E|[E|[]]]; discriminate. }
  split; [exact H|].
  exact (proj2 (proj2 (proj2 (proj2 (proj2 variants_agree_towards_backend))))
           (lit "ab") H).
Defined.

(** C9, as stated, fails: the variants differ outside the backend-to-client
    direction too; a request without a usable target is closed with one
    reason text by the one and another by the other. *)
Lemma rejection_reasons_differ :
  fst (Framed.connection None) = [ws_close_with 1008 (lit "need host:port")] /\
  fst (Raw.connection None) = [ws_close_with 1008 (lit "URL must encode host:port")] /\
  fst (Framed.connection None) <> fst (Raw.connection None).
Proof.
  split; [reflexivity|]. split; [reflexivity|]. intros H. vm_compute in H. discriminate.
Qed.

(** Counting calls does not see the frames. *)
Lemma counts_control (cs : list call) :
  count_ws_close (control cs) = count_ws_close cs /\
  count_tcp_destroy (control cs) = count_tcp_destroy cs /\
  pings (control cs) = pings cs.
Proof.
  unfold count_ws_close, count_tcp_destroy, pings, control.
  induction cs as [|c cs (IH1 & IH2 & IH3)]; [repeat split|].
  destruct c; cbn [filter List.length]; rewrite ?IH1, ?IH2, ?IH3; repeat split.
Qed.


Lemma pings_app (c1 c2 : list call) : pings (c1 ++ c2) = (pings c1 + pings c2)%nat.
Proof. unfold pings. rewrite filter_app, length_app. reflexivity. Qed.






End Lifecycle.

Module Teardown.

Import Platform Spec FramedFacts VariantFacts Lifecycle.



Lemma raw_handle_ka (e : event) (w : Raw.session) :
  (ws_readyState w = CLOSED -> ka w = false) ->
  (ws_readyState (snd (Raw.handle w e)) = CLOSED -> ka (snd (Raw.handle w e)) = false).
Proof.
  destruct w as [ws t k]. cbn [ws_readyState ka]. intros H.
  destruct e; destruct ws, t; cbn; auto; discriminate.
Qed.

Lemma raw_run_ka (evs : list event) (w : Raw.session) :
  (ws_readyState w = CLOSED -> ka w = false) ->
  (ws_readyState (snd (Raw.run w evs)) = CLOSED -> ka (snd (Raw.run w evs)) = false).
Proof.
  revert w. induction evs as [|e evs IH]; intros w H; [exact H|].
  rewrite raw_run_cons. cbn [snd]. apply IH, raw_handle_ka, H.
Qed.

(** A cleared interval stays cleared and never fires. *)
Lemma raw_run_cleared (evs : list event) (w : Raw.session) :
  ka w = false ->
  pings (fst (Raw.run w evs)) = 0%nat /\ ka (snd (Raw.run w evs)) = false.
Proof.
  revert w. induction evs as [|e evs IH]; intros w H; [split; [reflexivity|exact H]|].
  rewrite raw_run_cons. cbn [fst snd]. rewrite pings_app.
  assert (Hh : pings (fst (Raw.handle w e)) = 0%nat /\ ka (snd (Raw.handle w e)) = false).
  { destruct w as [ws t k]. cbn [ka] in H. subst k.
    destruct e; destruct ws, t; split; reflexivity. }
  destruct Hh as [Hp Hk]. destruct (IH _ Hk) as [Hp' Hk']. rewrite Hp, Hp'. auto.
Qed.

(** C5 (amended).  The interval is armed when the session is created, while
    the backend connect is still in flight; a tick pings exactly while it
    is armed; the client's ['close'] clears it, so it is cleared whenever
    the client is CLOSED (hence in [closed]), and after the client's
    ['close'] no ping is sent, whatever follows. *)
Theorem probe_runs_until_client_close :
  (ka (Framed.wire Framed.fresh) = true /\
   lifecycle_of (Framed.wire Framed.fresh) = connecting) /\
  (forall url s, snd (Framed.connection url) = Some s ->
     s = Framed.fresh /\
     In (setInterval Framed.KEEPALIVE_MS) (fst (Framed.connection url))) /\
  (forall s, fst (Framed.handle s tick) =
             if ka (Framed.wire s) then [ws_ping] else []) /\
  (forall evs,
     lifecycle_of (Framed.wire (snd (Framed.run Framed.fresh evs))) = closed ->
     ka (Framed.wire (snd (Framed.run Framed.fresh evs))) = false) /\
  (forall before after s,
     pings (fst (Framed.run
                   (snd (Framed.run s (before ++ [ws_closed]))) after)) = 0%nat).
Proof.
  split; [split; reflexivity|]. split; [|split; [|split]].
  - intros url s. unfold Framed.connection, decode_path, Framed.open_target.
    destruct (nth_error _ 0) as [host|]; [|discriminate].
    destruct (JS.falsy host || JsNumber.falsy _); [discriminate|].
    destruct (legal_port _ && legal_host _); [|discriminate].
    cbn [fst snd]. intros [= <-]. split; [reflexivity|]. right. left. reflexivity.
  - intros [r [ws t k]]. destruct k; reflexivity.
  - intros evs. destruct (run_simulation evs Framed.fresh) as [_ Hs].
    rewrite <- Hs. intros H. apply raw_run_ka; [discriminate|].
    unfold lifecycle_of in H.
    destruct (tcp _), (ws_readyState _); try discriminate; reflexivity.
  - intros before after s.
    set (s1 := snd (Framed.run s (before ++ [ws_closed]))).
    destruct (run_simulation after s1) as [Hc _].
    rewrite <- (proj2 (proj2 (counts_control _))), <- Hc,
      (proj2 (proj2 (counts_control _))).
    apply raw_run_cleared. unfold s1. rewrite run_app. cbn [snd].
    destruct (snd (Framed.run s before)) as [r [ws t k]]. reflexivity.
Qed.

(** C5, as stated, fails: a tick pings while the backend connect is still
    in flight, and still pings after a backend error started the teardown. *)
Lemma probe_fires_outside_active :
  lifecycle_of (Framed.wire Framed.fresh) = connecting /\
  fst (Framed.handle Framed.fresh tick) = [ws_ping] /\
  lifecycle_of (Framed.wire (snd (Framed.run Framed.fresh [tcp_connect; tcp_error])))
    = closing /\
  fst (Framed.run Framed.fresh [tcp_connect; tcp_error; tick]) =
    [tcp_destroy; ws_close; ws_ping].
Proof. repeat split. Qed.

End Teardown.

(** ** The address decoder *)

Module Decoder.

Import JsNumber Platform Spec Utf8Facts Base64Facts NumberFacts DoubleFacts.

Lemma framed_connection (url : option (list N)) :
  Framed.connection url = Framed.open_target (decoded_of url).
Proof. reflexivity. Qed.

Lemma raw_connection (url : option (list N)) :
  Raw.connection url = Raw.open_target (decoded_of url).
Proof. reflexivity. Qed.

(** Decoding the token of a well-formed text gives the text back. *)
Lemma decoded_token (target : list N) :
  well_formed target -> decoded_of (url_of target) = target.
Proof.
  intros H. unfold decoded_of, url_of, token.
  cbn [replace_first]. change (SLASH =? SLASH) with true. cbv beta iota.
  rewrite decode_encode by apply encode_octets.
  apply toString_encode, H.
Qed.

(** The first two parts of a text that reads [host:p] or [host:p:more]. *)
Lemma split_target (host p : list N) (decoded : list N) :
  ~ In COLON host -> ~ In COLON p ->
  decoded = host ++ COLON :: p \/
  (exists more, decoded = host ++ COLON :: p ++ COLON :: more) ->
  nth_error (split COLON decoded) 0 = Some host /\
  nth_error (split COLON decoded) 1 = Some p.
Proof.
  intros Hh Hp [->|[more ->]]; rewrite split_at_sep by exact Hh.
  - rewrite (split_no_sep COLON p Hp). split; reflexivity.
  - rewrite split_at_sep by exact Hp. split; reflexivity.
Qed.

Lemma framed_open_target (host p decoded : list N) :
  ~ In COLON host -> ~ In COLON p ->
  decoded = host ++ COLON :: p \/
  (exists more, decoded = host ++ COLON :: p ++ COLON :: more) ->
  Framed.open_target decoded =
  if JS.falsy host || JsNumber.falsy (Number (Some p))
  then ([ws_close_with 1008 (lit "need host:port")], None)
  else if legal_port (Number (Some p)) && legal_host host
  then ([net_connect host (Number (Some p)); setInterval Framed.KEEPALIVE_MS],
        Some Framed.fresh)
  else ([net_connect host (Number (Some p))], None).
Proof.
  intros Hh Hp Hd. destruct (split_target host p decoded Hh Hp Hd) as [H0 H1].
  unfold Framed.open_target. rewrite H0, H1. reflexivity.
Qed.

Lemma raw_open_target (host p decoded : list N) :
  ~ In COLON host -> ~ In COLON p ->
  decoded = host ++ COLON :: p \/
  (exists more, decoded = host ++ COLON :: p ++ COLON :: more) ->
  Raw.open_target decoded =
  if JS.falsy host || JsNumber.falsy (Number (Some p))
  then ([ws_close_with 1008 (lit "URL must encode host:port")], None)
  else if legal_port (Number (Some p)) && legal_host host
  then ([net_connect host (Number (Some p)); setInterval Raw.KEEPALIVE_MS],
        Some Raw.fresh)
  else ([net_connect host (Number (Some p))], None).
Proof.
  intros Hh Hp Hd. destruct (split_target host p decoded Hh Hp Hd) as [H0 H1].
  unfold Raw.open_target. rewrite H0, H1. reflexivity.
Qed.

Lemma framed_no_separator (decoded : list N) :
  ~ In COLON decoded ->
  Framed.open_target decoded = ([ws_close_with 1008 (lit "need host:port")], None).
Proof.
  intros H. unfold Framed.open_target. rewrite (split_no_sep COLON _ H).
  cbn [nth_error Number JsNumber.falsy NaN]. rewrite orb_true_r. reflexivity.
Qed.

(** The targets the guard [!host || !port] does reject: a decoded text with
    no [:], an empty host, or a port text that [Number] turns into [NaN]
    or into zero.  The handler's only call is then
    [ws.close(1008, 'need host:port')]; [net.connect] is not called and no
    session exists. *)
Theorem malformed_target_is_rejected (url : option (list N)) (host p : list N) :
  ~ In COLON host -> ~ In COLON p ->
  decoded_of url = host \/
  ((decoded_of url = host ++ COLON :: p \/
    exists more, decoded_of url = host ++ COLON :: p ++ COLON :: more) /\
   (host = [] \/ Number (Some p) = NaN \/
    exists sign, Number (Some p) = S754_zero sign)) ->
  Framed.connection url = ([ws_close_with 1008 (lit "need host:port")], None).
Proof.
  intros Hh Hp [Hd|[Hd Hbad]]; rewrite framed_connection.
  - rewrite Hd. apply framed_no_separator, Hh.
  - rewrite (framed_open_target host p _ Hh Hp Hd).
    destruct Hbad as [->|[->|[sign ->]]]; [reflexivity| |];
      cbn [JsNumber.falsy NaN]; rewrite orb_true_r; reflexivity.
Qed.

Lemma malformed_target_is_rejected_witness :
  ~ In COLON (lit "pool") /\ ~ In COLON (lit "0") /\
  decoded_of (url_of (lit "pool:0")) = lit "pool" ++ COLON :: lit "0" /\
  Number (Some (lit "0")) = S754_zero false /\
  Framed.connection (url_of (lit "pool:0")) =
    ([ws_close_with 1008 (lit "need host:port")], None).
Proof.
  assert (Hh : ~ In COLON (lit "pool")) by (vm_compute; intuition discriminate).
  assert (Hp : ~ In COLON (lit "0")) by (vm_compute; intuition discriminate).
  assert (Hd : decoded_of (url_of (lit "pool:0")) = lit "pool" ++ COLON :: lit "0")
    by (vm_compute; reflexivity).
  assert (Hz : Number (Some (lit "0")) = S754_zero false) by (vm_compute; reflexivity).
  repeat (split; [assumption|]).
  apply (malformed_target_is_rejected _ (lit "pool") (lit "0") Hh Hp).
  right. split; [left; exact Hd|]. right. right. exists false. exact Hz.
Defined.

(** C3, a defect of the code.  The token of "h:-1" is not rejected: the
    port -1 passes the test [!port], the handler's only call is
    [net.connect] with port -1, which throws, and [ws.close(1008, ...)] is
    never called.  And the token "a*Do4MA==", with a character outside the
    encoding alphabet, is not rejected either: the character is skipped,
    the text read is "h:80", and the session is created. *)
Lemma negative_port_is_not_rejected :
  Framed.connection (url_of (lit "h:-1")) =
    ([net_connect (lit "h") (Number (Some (lit "-1")))], None) /\
  integer_value (Number (Some (lit "-1"))) = Some (-1)%Z /\
  Framed.connection (Some (lit "/a*Do4MA==")) =
    ([net_connect (lit "h") (Number (Some (lit "80")));
      setInterval Framed.KEEPALIVE_MS], Some Framed.fresh).
Proof. repeat split; vm_compute; reflexivity. Qed.

(** A host that holds U+0000 makes [net.connect] throw, whatever the port:
    the call is made, no timer is started and no session exists, in both
    variants. *)
Lemma nul_host_is_given_no_session :
  Framed.connection (url_of (0 :: lit ":80")) =
    ([net_connect [0] (Number (Some (lit "80")))], None) /\
  Raw.connection (url_of (0 :: lit ":80")) =
    ([net_connect [0] (Number (Some (lit "80")))], None).
Proof. split; vm_compute; reflexivity. Qed.

End Decoder.

Module RoundTrip.

Import JsNumber Platform Spec Utf8Facts Base64Facts NumberFacts DoubleFacts Decoder.

Lemma numeral_clean (ds : list N) : digits ds -> ~ In COLON (numeral ds).
Proof.
  intros H Hin. unfold numeral in Hin. apply in_map_iff in Hin.
  destruct Hin as (d & Hd & Hin). unfold digits in H. rewrite Forall_forall in H.
  specialize (H d Hin). unfold COLON in Hd. lia.
Qed.

Lemma numeral_well_formed (ds : list N) : digits ds -> well_formed (numeral ds).
Proof.
  intros H. unfold well_formed, numeral. apply Forall_map.
  eapply Forall_impl; [|exact H]. cbv beta. intros d Hd.
  unfold Utf8.scalar, Utf8.surrogate.
  apply andb_true_iff. split; [apply N.ltb_lt; lia|].
  apply negb_true_iff, andb_false_iff. left. apply N.leb_gt. lia.
Qed.

(** A decimal numeral of a positive integer below 2^53 converts to that
    integer, which is truthy. *)
Lemma Number_numeral (ds : list N) :
  digits ds -> ds <> [] -> (0 < numeral_value ds < 2 ^ 53)%Z ->
  integer_value (Number (Some (numeral ds))) = Some (numeral_value ds) /\
  JsNumber.falsy (Number (Some (numeral ds))) = false.
Proof.
  intros Hd Hne Hv. cbn [Number]. rewrite StringToNumber_numeral by assumption.
  destruct (numeral_value ds) as [|p|p] eqn:E; try lia.
  unfold to_double. cbn [Z.leb Z.compare Z.pow]. rewrite Z.mul_1_r.
  destruct (binary_round_exact false p (proj2 Hv)) as (m & e & -> & He & Hm).
  split; [|reflexivity]. unfold integer_value.
  destruct (Z.leb_spec 0 e).
  - replace e with 0%Z in * by lia. f_equal. simpl in Hm. lia.
  - rewrite Hm, Z.mod_mul, Z.div_mul by (apply Z.pow_nonzero; lia). reflexivity.
Qed.

(** C6 (amended).  For a non-empty host of well-formed text without [:]
    and a decimal numeral of a positive integer below 2^53, the handler
    given the token of [host:numeral] decodes exactly that pair: its first
    call is [net.connect] with that host and with that integer as port. *)
Theorem target_round_trip (host ds : list N) :
  host <> [] -> well_formed host -> ~ In COLON host ->
  digits ds -> ds <> [] -> (0 < numeral_value ds < 2 ^ 53)%Z ->
  let r := Framed.connection (url_of (host ++ COLON :: numeral ds)) in
  let port := Number (Some (numeral ds)) in
  hd_error (fst r) = Some (net_connect host port) /\
  integer_value port = Some (numeral_value ds).
Proof.
  intros Hne Hw Hc Hd Hds Hv r port.
  destruct (Number_numeral ds Hd Hds Hv) as [Hi Hf]. fold port in Hi, Hf.
  split; [|exact Hi].
  unfold r. rewrite framed_connection, decoded_token.
  - rewrite (framed_open_target host (numeral ds)); auto using numeral_clean.
    fold port. rewrite Hf. destruct host; [congruence|]. cbn [JS.falsy orb].
    destruct (legal_port port && legal_host _); reflexivity.
  - apply Forall_app. split; [exact Hw|].
    constructor; [reflexivity|apply numeral_well_formed, Hd].
Qed.

Lemma target_round_trip_witness :
  let host := lit "power2b.na.mine.zpool.ca" in
  let ds := [6; 2; 4; 2] in
  numeral ds = lit "6242" /\
  hd_error (fst (Framed.connection (url_of (host ++ COLON :: numeral ds)))) =
    Some (net_connect host (Number (Some (numeral ds)))) /\
  integer_value (Number (Some (numeral ds))) = Some 6242%Z.
Proof.
  intros host ds.
  assert (H1 : host <> []) by discriminate.
  assert (H2 : well_formed host) by (repeat constructor).
  assert (H3 : ~ In COLON host) by (vm_compute; intuition discriminate).
  assert (H4 : digits ds) by (repeat constructor).
  assert (H5 : ds <> []) by discriminate.
  assert (H6 : (0 < numeral_value ds < 2 ^ 53)%Z) by (vm_compute; split; reflexivity).
  split; [reflexivity|].
  exact (target_round_trip host ds H1 H2 H3 H4 H5 H6).
Defined.

(** C6, as stated, fails: a host with a [:] in it (an IPv6 literal) is cut at
    its first [:] and the target is rejected; and a port of 2^53 + 1 reaches
    [net.connect] as 2^53. *)
Lemma colon_in_host_breaks_round_trip :
  Framed.connection (url_of (lit "[::1]:80")) =
    ([ws_close_with 1008 (lit "need host:port")], None) /\
  Framed.connection (url_of (lit "h:9007199254740993")) =
    ([net_connect (lit "h") (Number (Some (lit "9007199254740993")))], None) /\
  integer_value (Number (Some (lit "9007199254740993"))) =
    Some 9007199254740992%Z.
Proof. repeat split; vm_compute; reflexivity. Qed.

(** C10 (amended).  When the decoded text has more than one [:], the parts
    after the second [:] play no role: both variants do what they do for
    [host:port] alone, where host is the text before the first [:] and port
    the text between the first two.  A non-empty host and a truthy port
    make [net.connect] the first call, with that host and port; an empty
    host or a falsy port is rejected. *)
Theorem extra_parts_are_ignored (url : option (list N)) (host p more : list N) :
  decoded_of url = host ++ COLON :: p ++ COLON :: more ->
  ~ In COLON host -> ~ In COLON p ->
  (Framed.connection url = Framed.open_target (host ++ COLON :: p) /\
   Raw.connection url = Raw.open_target (host ++ COLON :: p)) /\
  (host <> [] -> JsNumber.falsy (Number (Some p)) = false ->
   hd_error (fst (Framed.connection url)) = Some (net_connect host (Number (Some p))) /\
   hd_error (fst (Raw.connection url)) = Some (net_connect host (Number (Some p)))) /\
  (host = [] \/ JsNumber.falsy (Number (Some p)) = true ->
   Framed.connection url = ([ws_close_with 1008 (lit "need host:port")], None) /\
   Raw.connection url = ([ws_close_with 1008 (lit "URL must encode host:port")], None)).
Proof.
  intros Hd Hh Hp.
  assert (HF := framed_open_target host p (decoded_of url) Hh Hp
                  (or_intror (ex_intro _ more Hd))).
  assert (HR := raw_open_target host p (decoded_of url) Hh Hp
                  (or_intror (ex_intro _ more Hd))).
  rewrite framed_connection, raw_connection.
  split; [|split].
  - rewrite HF, HR.
    rewrite (framed_open_target host p _ Hh Hp (or_introl eq_refl)).
    rewrite (raw_open_target host p _ Hh Hp (or_introl eq_refl)). split; reflexivity.
  - intros Hne Hf. rewrite HF, HR, Hf.
    destruct host; [congruence|]. cbn [JS.falsy orb].
    destruct (legal_port _ && legal_host _); split; reflexivity.
  - intros [->|Hf]; rewrite HF, HR; [split; reflexivity|].
    rewrite Hf, orb_true_r. split; reflexivity.
Qed.

Lemma extra_parts_are_ignored_witness :
  decoded_of (url_of (lit "fe80:1:2")) = lit "fe80" ++ COLON :: lit "1" ++ COLON :: lit "2" /\
  Framed.connection (url_of (lit "fe80:1:2")) =
    Framed.open_target (lit "fe80" ++ COLON :: lit "1") /\
  hd_error (fst (Framed.open_target (lit "fe80" ++ COLON :: lit "1"))) =
    Some (net_connect (lit "fe80") (Number (Some (lit "1")))).
Proof.
  assert (Hd : decoded_of (url_of (lit "fe80:1:2")) =
               lit "fe80" ++ COLON :: lit "1" ++ COLON :: lit "2")
    by (vm_compute; reflexivity).
  assert (Hh : ~ In COLON (lit "fe80")) by (vm_compute; intuition discriminate).
  assert (Hp : ~ In COLON (lit "1")) by (vm_compute; intuition discriminate).
  split; [exact Hd|]. split.
  - exact (proj1 (proj1 (extra_parts_are_ignored _ _ _ _ Hd Hh Hp))).
  - vm_compute. reflexivity.
Defined.

(** C10, as stated, fails: with an empty host a truthy port does not lead
    to a connection attempt; the target is rejected. *)
Lemma empty_host_is_rejected :
  decoded_of (url_of (lit ":80:x")) = [] ++ COLON :: lit "80" ++ COLON :: lit "x" /\
  JsNumber.falsy (Number (Some (lit "80"))) = false /\
  Framed.connection (url_of (lit ":80:x")) =
    ([ws_close_with 1008 (lit "need host:port")], None) /\
  Raw.connection (url_of (lit ":80:x")) =
    ([ws_close_with 1008 (lit "URL must encode host:port")], None).
Proof. repeat split; vm_compute; reflexivity. Qed.

End RoundTrip.

(** ** Further properties of the handlers *)

Module HandlerFacts.

Import JsNumber Platform Spec Coverage Tactics.
Import Utf8Facts FramedFacts SegmentFacts VariantFacts Lifecycle Decoder.

(** X1.  The decode block recovers any well-formed text from its token,
    also when the token holds a [/]: on the request target [/token] both
    handlers go on with exactly the text that was encoded. *)
Theorem token_decodes_to_its_text (target : list N) :
  well_formed target ->
  Framed.connection (url_of target) = Framed.open_target target /\
  Raw.connection (url_of target) = Raw.open_target target.
Proof.
  intros H. rewrite framed_connection, raw_connection, decoded_token by exact H.
  split; reflexivity.
Qed.

Lemma token_decodes_to_its_text_witness :
  token (lit "???:1") = lit "Pz8/OjE=" /\
  Framed.connection (url_of (lit "???:1")) = Framed.open_target (lit "???:1").
Proof.
  split; [reflexivity|].
  apply (token_decodes_to_its_text (lit "???:1")). repeat constructor.
Defined.

Lemma integer_zero_is_falsy (x : spec_float) :
  integer_value x = Some 0%Z -> JsNumber.falsy x = true.
Proof.
  destruct x as [sg|sg| |sg m e]; try discriminate; [reflexivity|].
  unfold integer_value. intros H. exfalso.
  destruct (Z.leb_spec 0 e) as [He|He].
  - assert (Hv : (0 < Zpos m * 2 ^ e)%Z).
    { apply Z.mul_pos_pos; [reflexivity|apply Z.pow_pos_nonneg; [reflexivity|exact He]]. }
    set (v := (Zpos m * 2 ^ e)%Z) in *.
    destruct sg; injection H as H; lia.
  - assert (Hp : (0 < 2 ^ (- e))%Z) by (apply Z.pow_pos_nonneg; lia).
    destruct (Z.eqb_spec (Zpos m mod 2 ^ (- e)) 0) as [Hm|]; [|discriminate].
    pose proof (Z.div_mod (Zpos m) (2 ^ (- e))) as Hdm.
    set (q := (Zpos m / 2 ^ (- e))%Z) in *.
    assert (Hq : q = 0%Z) by (destruct sg; injection H as H; lia).
    rewrite Hm, Hq, Z.mul_0_r in Hdm. specialize (Hdm ltac:(lia)). discriminate.
Qed.

Lemma nth_error_split_clean (decoded host : list N) (n : nat) :
  nth_error (split COLON decoded) n = Some host -> ~ In COLON host.
Proof.
  intros H. apply nth_error_In in H.
  pose proof (split_clean COLON decoded) as Hc. rewrite Forall_forall in Hc.
  exact (Hc _ H).
Qed.

(** X2.  A session exists only for a usable destination: whenever either
    handler creates one, its calls were [net.connect] and then
    [setInterval(..., 15000)], the host is not empty and holds no [:], and
    the port is an integer from 1 to 65535. *)
Theorem session_needs_host_and_port
    (url : option (list N)) (calls : list call) :
  (exists s, Framed.connection url = (calls, Some s)) \/
  (exists w, Raw.connection url = (calls, Some w)) ->
  exists host port n,
    calls = [net_connect host port; setInterval 15000] /\
    host <> [] /\ ~ In COLON host /\
    integer_value port = Some n /\ (1 <= n <= 65535)%Z.
Proof.
  assert (Hport : forall port, JsNumber.falsy port = false -> legal_port port = true ->
                  exists n, integer_value port = Some n /\ (1 <= n <= 65535)%Z).
  { intros port Hf Hl. unfold legal_port in Hl.
    destruct (integer_value port) as [n|] eqn:E; [|discriminate].
    exists n. split; [reflexivity|].
    apply andb_true_iff in Hl. destruct Hl as [H0 H1].
    apply Z.leb_le in H0, H1.
    destruct (Z.eq_dec n 0) as [->|]; [|lia].
    apply integer_zero_is_falsy in E. congruence. }
  intros [[s H]|[w H]].
  - rewrite framed_connection in H. unfold Framed.open_target in H.
    destruct (nth_error _ 0) as [host|] eqn:E0; [|discriminate].
    destruct (JS.falsy host || JsNumber.falsy _) eqn:Ef; [discriminate|].
    destruct (legal_port _ && legal_host _) eqn:El; [|discriminate].
    apply andb_true_iff in El. destruct El as [El _].
    apply orb_false_iff in Ef. destruct Ef as [Eh Ep].
    destruct (Hport _ Ep El) as (n & Hn & Hr).
    injection H as <- _. exists host, (Number (nth_error (split COLON (decoded_of url)) 1)), n.
    repeat split; try assumption; try lia.
    + destruct host; [discriminate|discriminate].
    + exact (nth_error_split_clean _ _ _ E0).
  - rewrite raw_connection in H. unfold Raw.open_target in H.
    destruct (nth_error _ 0) as [host|] eqn:E0; [|discriminate].
    destruct (JS.falsy host || JsNumber.falsy _) eqn:Ef; [discriminate|].
    destruct (legal_port _ && legal_host _) eqn:El; [|discriminate].
    apply andb_true_iff in El. destruct El as [El _].
    apply orb_false_iff in Ef. destruct Ef as [Eh Ep].
    destruct (Hport _ Ep El) as (n & Hn & Hr).
    injection H as <- _. exists host, (Number (nth_error (split COLON (decoded_of url)) 1)), n.
    repeat split; try assumption; try lia.
    + destruct host; [discriminate|discriminate].
    + exact (nth_error_split_clean _ _ _ E0).
Qed.

Lemma session_needs_host_and_port_witness :
  Framed.connection (url_of (lit "pool:3333")) =
    ([net_connect (lit "pool") (Number (Some (lit "3333"))); setInterval 15000],
     Some Framed.fresh) /\
  exists host port n,
    [net_connect (lit "pool") (Number (Some (lit "3333"))); setInterval 15000] =
      [net_connect host port; setInterval 15000] /\
    host <> [] /\ ~ In COLON host /\
    integer_value port = Some n /\ (1 <= n <= 65535)%Z.
Proof.
  assert (H : Framed.connection (url_of (lit "pool:3333")) =
    ([net_connect (lit "pool") (Number (Some (lit "3333"))); setInterval 15000],
     Some Framed.fresh)) by (vm_compute; reflexivity).
  split; [exact H|].
  apply (session_needs_host_and_port (url_of (lit "pool:3333"))).
  left. exists Framed.fresh. exact H.
Defined.

End HandlerFacts.

Module RelayFacts.

Import Platform Spec Coverage Tactics.
Import Utf8Facts FramedFacts SegmentFacts VariantFacts Lifecycle Teardown.

(** X3.  For any bytes at all: while the client stays OPEN, the frames sent
    are the non-empty segments completed by the chunk texts, each chunk
    decoded on arrival, in stream order, whatever client messages, ticks or
    the connect callback come in between; [rest] is the text after the last
    delimiter. *)
Theorem frames_follow_chunk_texts (evs : list event) :
  Forall (fun e => quiet e = true) evs ->
  frames (fst (Framed.run Framed.fresh evs)) =
    map TEXT (nonempty (complete_segments (stream_text evs))) /\
  Framed.rest (snd (Framed.run Framed.fresh evs)) = remainder (stream_text evs).
Proof.
  intros H.
  destruct (run_quiet evs Framed.fresh H eq_refl) as (Hf & Hr & _).
  - simpl. tauto.
  - split; assumption.
Qed.

Lemma frames_follow_chunk_texts_witness :
  let evs := [tcp_data [0xC3]; tick; tcp_data [0xA9; 10; 97];
              ws_message (data_buffer [98]); tcp_data [10; 10; 99]] in
  Forall (fun e => quiet e = true) evs /\
  stream_text evs = [0xFFFD; 0xFFFD; 10; 97; 10; 10; 99] /\
  frames (fst (Framed.run Framed.fresh evs)) =
    map TEXT (nonempty (complete_segments (stream_text evs))) /\
  Framed.rest (snd (Framed.run Framed.fresh evs)) = remainder (stream_text evs).
Proof.
  intros evs.
  assert (H : Forall (fun e => quiet e = true) evs) by (repeat constructor).
  split; [exact H|]. split; [reflexivity|].
  exact (frames_follow_chunk_texts evs H).
Defined.

Lemma frames_lines (evs : list event) (s : Framed.session) :
  ~ In LF (Framed.rest s) ->
  Forall (fun f => exists m, f = TEXT m /\ m <> [] /\ ~ In LF m)
         (frames (fst (Framed.run s evs))).
Proof.
  revert s. induction evs as [|e evs IH]; intros s Hc; [constructor|].
  rewrite run_cons. cbn [fst]. rewrite frames_app. apply Forall_app. split.
  - rewrite handle_frames. destruct e; try constructor.
    + destruct (Framed.ws_open s); [|constructor].
      apply Forall_forall. intros f Hf. apply in_map_iff in Hf.
      destruct Hf as (m & <- & Hm). exists m. split; [reflexivity|].
      unfold nonempty in Hm. apply filter_In in Hm. destruct Hm as [Hm Hne].
      split; [destruct m; [discriminate|discriminate]|].
      pose proof (completed_clean LF (Framed.rest s ++ Utf8.toString chunk)) as Hcl.
      rewrite Forall_forall in Hcl. exact (Hcl _ Hm).
    + destruct (negb (JS.falsy (Framed.rest s)) && Framed.ws_open s) eqn:E;
        constructor; [|constructor].
      exists (Framed.rest s). split; [reflexivity|]. split; [|exact Hc].
      destruct (Framed.rest s); [discriminate|discriminate].
  - apply IH. rewrite handle_rest. destruct e; try exact Hc. apply tail_clean.
Qed.

(** X4.  Every frame the framed variant sends, over any sequence of events,
    is a TEXT frame of one line: its text is not empty and holds no line
    feed. *)
Theorem frames_are_single_lines (evs : list event) :
  Forall (fun f => exists m, f = TEXT m /\ m <> [] /\ ~ In LF m)
         (frames (fst (Framed.run Framed.fresh evs))).
Proof. apply frames_lines. simpl. tauto. Qed.

Lemma writes_app (c1 c2 : list call) : writes (c1 ++ c2) = writes c1 ++ writes c2.
Proof. apply flat_map_app. Qed.

Lemma writes_control (cs : list call) : writes (control cs) = writes cs.
Proof.
  induction cs as [|c cs IH]; [reflexivity|].
  destruct c; cbn [control filter writes flat_map app]; fold (control cs);
    fold (writes cs); fold (writes (control cs)); rewrite ?IH; reflexivity.
Qed.

Lemma raw_writes (evs : list event) (w : Raw.session) :
  writes (fst (Raw.run w evs)) = map terminated (messages evs).
Proof.
  revert w. induction evs as [|e evs IH]; intros w; [reflexivity|].
  rewrite raw_run_cons. cbn [fst]. rewrite writes_app, IH.
  destruct w as [ws t k]. destruct e; destruct ws, t, k; reflexivity.
Qed.

(** X5.  Client to backend, over any sequence of events and from any state:
    the buffers written are the client's messages, each with its delimiter,
    one write per message, in the order received.  No listener drops or
    delays a message, not even when the backend socket is destroyed. *)
Theorem messages_are_written_in_order
    (evs : list event) (s : Framed.session) (w : Raw.session) :
  writes (fst (Framed.run s evs)) = map terminated (messages evs) /\
  writes (fst (Raw.run w evs)) = map terminated (messages evs).
Proof.
  split; [|apply raw_writes].
  destruct (run_simulation evs s) as [Hc _].
  rewrite <- writes_control, <- Hc, writes_control. apply raw_writes.
Qed.

(** X6.  Framing is idempotent and only appends: what a message is written
    as would be written unchanged if it came in as a message, starts with
    the message's octets, and is at most one octet longer. *)
Theorem framing_is_idempotent (data : message_data) (s : Framed.session) :
  exists out,
    fst (Framed.on_message data s) = [tcp_write out] /\
    fst (Framed.on_message (data_buffer out) s) = [tcp_write out] /\
    firstn (List.length (to_buffer data)) out = to_buffer data /\
    (List.length out <= List.length (to_buffer data) + 1)%nat.
Proof.
  unfold Framed.on_message. cbn [fst to_buffer].
  change (Utf8.encode [LF]) with [LF].
  destruct (strict_eq (last_octet (to_buffer data)) 10) eqn:E.
  - exists (to_buffer data). rewrite E. repeat split.
    + apply firstn_all.
    + lia.
  - exists (to_buffer data ++ [LF]).
    rewrite last_octet_app. cbn [strict_eq]. change (LF =? 10) with true.
    repeat split.
    + rewrite firstn_app, firstn_all, Nat.sub_diag. cbn. apply app_nil_r.
    + rewrite length_app. cbn. lia.
Qed.

End RelayFacts.

Module MoreRelayFacts.

Import JsNumber Platform Spec Coverage Tactics.
Import Utf8Facts FramedFacts SegmentFacts VariantFacts Lifecycle Teardown Reassembler.

Lemma raw_run_quiet (evs : list event) (w : Raw.session) :
  Forall (fun e => quiet e = true) evs ->
  frames (fst (Raw.run w evs)) =
  if is_open (ws_readyState w) then map BINARY (chunks_of evs) else [].
Proof.
  intros H. revert w. induction H as [|e evs He _ IH]; intros w.
  - destruct (is_open _); reflexivity.
  - rewrite raw_run_cons. cbn [fst]. rewrite frames_app, IH.
    destruct w as [ws t k].
    destruct e; try discriminate; destruct ws, t, k; reflexivity.
Qed.

(** X7.  The raw variant forwards backend chunks as they come: while the
    client stays OPEN the frames sent are the chunks received, each as one
    BINARY frame, in order, so the payloads add up to the backend's octets;
    nothing is split, joined or changed. *)
Theorem raw_forwards_chunks (evs : list event) :
  Forall (fun e => quiet e = true) evs ->
  frames (fst (Raw.run Raw.fresh evs)) = map BINARY (chunks_of evs) /\
  List.concat (map payload (frames (fst (Raw.run Raw.fresh evs)))) =
    List.concat (chunks_of evs).
Proof.
  intros H. rewrite (raw_run_quiet evs Raw.fresh H). cbn [Raw.fresh ws_readyState is_open].
  split; [reflexivity|]. rewrite map_map. cbn [payload]. rewrite map_id. reflexivity.
Qed.

Lemma raw_forwards_chunks_witness :
  let evs := [tcp_data [0xFF; 10]; tick; tcp_data []; tcp_data [97]] in
  Forall (fun e => quiet e = true) evs /\
  frames (fst (Raw.run Raw.fresh evs)) = [BINARY [0xFF; 10]; BINARY []; BINARY [97]].
Proof.
  intros evs.
  assert (H : Forall (fun e => quiet e = true) evs) by (repeat constructor).
  split; [exact H|]. exact (proj1 (raw_forwards_chunks evs H)).
Defined.

Lemma ascii_text (b : list N) :
  ascii b -> well_formed b /\ Utf8.encode b = b.
Proof.
  induction 1 as [|x b Hx _ [IHw IHe]]; [split; [constructor|reflexivity]|].
  split.
  - constructor; [|exact IHw]. unfold Utf8.scalar, Utf8.surrogate.
    apply andb_true_iff. split; [apply N.ltb_lt; lia|].
    apply negb_true_iff, andb_false_iff. left. apply N.leb_gt. lia.
  - cbn [Utf8.encode flat_map]. fold (Utf8.encode b). rewrite IHe.
    unfold Utf8.encode_cp. branch. reflexivity.
Qed.

Lemma ascii_chunks (chunks : list (list N)) :
  Forall ascii chunks -> Forall well_formed chunks /\ map Utf8.encode chunks = chunks.
Proof.
  induction 1 as [|b chunks Hb _ [IHw IHe]]; [split; [constructor|reflexivity]|].
  destruct (ascii_text b Hb) as [Hw He].
  split; [constructor; assumption|]. cbn [map]. rewrite He, IHe. reflexivity.
Qed.

(** X8.  7-bit streams pass the framed relay octet for octet, wherever the
    chunk boundaries fall: over the whole stream the payloads of the frames
    are the non-empty lines of the concatenated chunks. *)
Theorem ascii_stream_is_relayed_exactly (chunks : list (list N)) :
  Forall ascii chunks ->
  map payload (frames (fst (Framed.run Framed.fresh
                              (map tcp_data chunks ++ [tcp_end])))) =
  nonempty (split LF (List.concat chunks)).
Proof.
  intros H. destruct (ascii_chunks chunks H) as [Hw He].
  pose proof (proj1 (proj2 (delivered_payloads chunks ws_closed [] Hw eq_refl))) as D.
  cbv zeta in D. rewrite He in D. rewrite D.
  rewrite (split_completed_tail LF (List.concat chunks)).
  unfold nonempty. rewrite filter_app. reflexivity.
Qed.

Lemma ascii_stream_is_relayed_exactly_witness :
  let chunks := [[123; 34]; [97; 34; 58]; [49; 125; 10; 10; 123]; [125]] in
  Forall ascii chunks /\
  map payload (frames (fst (Framed.run Framed.fresh
                              (map tcp_data chunks ++ [tcp_end])))) =
  [[123; 34; 97; 34; 58; 49; 125]; [123; 125]].
Proof.
  intros chunks.
  assert (H : Forall ascii chunks) by (repeat constructor).
  split; [exact H|]. exact (ascii_stream_is_relayed_exactly chunks H).
Defined.

Lemma raw_run_not_open (evs : list event) (w : Raw.session) :
  is_open (ws_readyState w) = false -> frames (fst (Raw.run w evs)) = [].
Proof.
  revert w. induction evs as [|e evs IH]; intros w H; [reflexivity|].
  rewrite raw_run_cons. cbn [fst]. rewrite frames_app, IH.
  - destruct w as [ws t k]. cbn in H.
    destruct e; destruct ws, k; try discriminate; reflexivity.
  - destruct w as [ws t k]. cbn in H.
    destruct e; destruct ws, t; try discriminate; reflexivity.
Qed.

Lemma raw_run_app (evs1 evs2 : list event) (w : Raw.session) :
  snd (Raw.run w (evs1 ++ evs2)) = snd (Raw.run (snd (Raw.run w evs1)) evs2).
Proof.
  revert w. induction evs1 as [|e evs1 IH]; intros w; [reflexivity|].
  simpl app. rewrite !raw_run_cons. cbn [snd]. apply IH.
Qed.

(** X9.  In both variants, once an event has left the client not OPEN (its
    close or error, the library's closing handshake, or the backend's close
    or error), no frame is sent to it any more, whatever the backend still
    delivers. *)
Theorem nothing_is_sent_after_close
    (before after : list event) (e : event)
    (s : Framed.session) (w : Raw.session) :
  closes e = true ->
  frames (fst (Framed.run (snd (Framed.run s (before ++ [e]))) after)) = [] /\
  frames (fst (Raw.run (snd (Raw.run w (before ++ [e]))) after)) = [].
Proof.
  intros He. split.
  - apply run_not_open. rewrite run_app. cbn [snd]. rewrite run_cons. cbn [Framed.run snd].
    rewrite handle_open, He, andb_false_r. reflexivity.
  - apply raw_run_not_open. rewrite raw_run_app, raw_run_cons. cbn [Raw.run snd].
    destruct (snd (Raw.run w before)) as [ws t k].
    destruct e; try discriminate; destruct ws; reflexivity.
Qed.

Lemma nothing_is_sent_after_close_witness :
  closes tcp_error = true /\
  frames (fst (Framed.run
    (snd (Framed.run Framed.fresh ([tcp_data [97]] ++ [tcp_error])))
    [tcp_data [10; 98; 10]; tcp_end])) = [].
Proof.
  split; [reflexivity|].
  exact (proj1 (nothing_is_sent_after_close [tcp_data [97]] [tcp_data [10; 98; 10]; tcp_end]
                  tcp_error Framed.fresh Raw.fresh eq_refl)).
Defined.

Lemma raw_pings (evs : list event) (w : Raw.session) :
  ka w = true -> pings (fst (Raw.run w evs)) = ticks_before_close evs.
Proof.
  revert w. induction evs as [|e evs IH]; intros w H; [reflexivity|].
  rewrite raw_run_cons. cbn [fst]. rewrite pings_app.
  destruct w as [ws t k]. cbn in H. subst k.
  destruct e; cbn [ticks_before_close];
    try (rewrite IH by (destruct ws, t; reflexivity); destruct ws, t; reflexivity).
  rewrite (proj1 (raw_run_cleared evs _ (eq_refl : ka (snd (Raw.handle (mkWires ws t true) ws_closed)) = false))).
  destruct ws; reflexivity.
Qed.

(** X10.  The pings a session sends are its ticks up to the client's
    ['close'], one ping a tick, whatever else happens: the keep-alive does
    not depend on the backend's state or on traffic. *)
Theorem pings_count_ticks (evs : list event) :
  pings (fst (Framed.run Framed.fresh evs)) = ticks_before_close evs /\
  pings (fst (Raw.run Raw.fresh evs)) = ticks_before_close evs.
Proof.
  split; [|apply raw_pings; reflexivity].
  destruct (run_simulation evs Framed.fresh) as [Hc _].
  rewrite <- (proj2 (proj2 (counts_control _))), <- Hc,
    (proj2 (proj2 (counts_control _))).
  apply raw_pings. reflexivity.
Qed.

End MoreRelayFacts.

Module PortFacts.

Import JsNumber Platform Spec Coverage Tactics.
Import NumberFacts DoubleFacts Decoder RoundTrip.

Lemma trim_minus_numeral (ds : list N) :
  digits ds -> ds <> [] -> trim (45 :: numeral ds) = 45 :: numeral ds.
Proof.
  intros H Hne. unfold trim. cbn [trim_start white_space].
  change (white_space 45) with false. cbv beta iota.
  change (45 :: numeral ds) with ([45] ++ numeral ds).
  rewrite rev_app_distr. unfold numeral at 1. rewrite <- map_rev.
  fold (numeral (rev ds)).
  assert (Hr : trim_start (numeral (rev ds) ++ rev [45]) = numeral (rev ds) ++ rev [45]).
  { destruct (rev ds) as [|d r] eqn:E.
    - apply (f_equal (@rev N)) in E. rewrite rev_involutive in E. simpl in E. congruence.
    - assert (Hd : d < 10).
      { assert (Hin : In d (rev ds)) by (rewrite E; left; reflexivity).
        apply in_rev in Hin. unfold digits in H. rewrite Forall_forall in H. auto. }
      cbn [numeral map app trim_start]. rewrite white_space_numeral by exact Hd.
      reflexivity. }
  rewrite Hr, rev_app_distr, rev_involutive. unfold numeral.
  rewrite <- map_rev, rev_involutive. reflexivity.
Qed.

Lemma Number_minus_numeral (ds : list N) :
  digits ds -> ds <> [] -> (0 < numeral_value ds < 2 ^ 53)%Z ->
  integer_value (Number (Some (45 :: numeral ds))) = Some (- numeral_value ds)%Z /\
  JsNumber.falsy (Number (Some (45 :: numeral ds))) = false.
Proof.
  intros Hd Hne Hv. cbn [Number]. unfold StringToNumber.
  rewrite trim_minus_numeral by assumption.
  assert (Hn : non_decimal (45 :: numeral ds) = None).
  { destruct ds; [congruence|]. reflexivity. }
  rewrite Hn. change (45 =? 45) with true. cbv beta iota.
  rewrite unsigned_literal_numeral by assumption.
  destruct (numeral_value ds) as [|p|p] eqn:E; try lia.
  unfold to_double. cbn [Z.leb Z.compare Z.pow]. rewrite Z.mul_1_r.
  destruct (binary_round_exact true p (proj2 Hv)) as (m & e & -> & He & Hm).
  split; [|reflexivity]. unfold integer_value.
  destruct (Z.leb_spec 0 e).
  - replace e with 0%Z in * by lia. f_equal. simpl in Hm. lia.
  - rewrite Hm, Z.mod_mul, Z.div_mul by (apply Z.pow_nonzero; lia). reflexivity.
Qed.

(** X11.  A negative port is not refused by the handler: for a non-empty
    host without [:] and the numeral of a positive integer below 2^53 after
    a minus sign, the only call is [net.connect] with that host and the
    negative integer as port.  The client is not closed with 1008, no
    session is created and no timer is started in either variant. *)
Theorem negative_port_reaches_connect (host ds : list N) :
  host <> [] -> well_formed host -> ~ In COLON host ->
  digits ds -> ds <> [] -> (0 < numeral_value ds < 2 ^ 53)%Z ->
  let target := host ++ COLON :: 45 :: numeral ds in
  let port := Number (Some (45 :: numeral ds)) in
  Framed.connection (url_of target) = ([net_connect host port], None) /\
  Raw.connection (url_of target) = ([net_connect host port], None) /\
  integer_value port = Some (- numeral_value ds)%Z.
Proof.
  intros Hne Hw Hc Hd Hds Hv target port.
  destruct (Number_minus_numeral ds Hd Hds Hv) as [Hi Hf]. fold port in Hi, Hf.
  assert (Hp : ~ In COLON (45 :: numeral ds)).
  { intros [H|H]; [discriminate|]. exact (numeral_clean ds Hd H). }
  assert (Ht : well_formed target).
  { apply Forall_app. split; [exact Hw|].
    constructor; [reflexivity|]. constructor; [reflexivity|].
    apply numeral_well_formed, Hd. }
  assert (Hl : legal_port port = false).
  { unfold legal_port. rewrite Hi.
    destruct (Z.leb_spec 0 (- numeral_value ds)); [lia|reflexivity]. }
  rewrite framed_connection, raw_connection, decoded_token by exact Ht.
  unfold target.
  rewrite (framed_open_target host (45 :: numeral ds)); auto.
  rewrite (raw_open_target host (45 :: numeral ds)); auto.
  fold port. rewrite Hf, Hl. destruct host; [congruence|].
  repeat split. exact Hi.
Qed.

Lemma negative_port_reaches_connect_witness :
  let host := lit "pool" in
  let ds := [8; 0] in
  Framed.connection (url_of (lit "pool:-80")) =
    ([net_connect host (Number (Some (lit "-80")))], None) /\
  integer_value (Number (Some (lit "-80"))) = Some (-80)%Z.
Proof.
  intros host ds.
  assert (H1 : host <> []) by discriminate.
  assert (H2 : well_formed host) by (repeat constructor).
  assert (H3 : ~ In COLON host) by (vm_compute; intuition discriminate).
  assert (H4 : digits ds) by (repeat constructor).
  assert (H5 : ds <> []) by discriminate.
  assert (H6 : (0 < numeral_value ds < 2 ^ 53)%Z) by (vm_compute; split; reflexivity).
  pose proof (negative_port_reaches_connect host ds H1 H2 H3 H4 H5 H6) as T.
  split; [exact (proj1 T)|exact (proj2 (proj2 T))].
Defined.

End PortFacts.
